(* ===== verification/_CoqProject ===== *)
-Q . S2P
Prelude.v
EventBus.v
CartApi.v
Routes.v
Navbar.v
NavbarView.v
Receipt.v
ThankYouPage.v
Speakers.v
Footer.v
