(* ===== verification/Prelude.v ===== *)
(** * A verification development of the seeding-web shop front-end

    The program (TypeScript/React, under [src/]) is the front-end of an
    online shop with a live-streaming page.  Its five source files are:

    - [src/fe/src/components/Header/Navbar.tsx]: the site header.  It keeps
      the cart badge count ([cartCount]) in sync with the backend: on mount
      it fetches the cart of the signed-in user ([fetchCart], guarded by
      [if (user)]), and it subscribes [handleEvent] to the process-wide
      [Emitter] topic ["updateCartNumber"], unsubscribing in the effect's
      cleanup.  A second effect keeps a [mousedown] listener on the document
      while the mobile menu is open ([handleClickOutside]).  Its JSX shows
      the badge, sign-in controls chosen by [localStorage.getItem("user")],
      a language select and the menus.
    - [src/src/pages/Live/SpeakerView.tsx]: the speaker page of a live
      session.  It filters the provider's participant [Map] down to the
      participants in [CONFERENCE] mode ([speakers], memoised on the Map's
      reference) and shows the HLS state.
    - [src/fe/src/pages/ThankYou/ThankYou.tsx]: the order confirmation.  It
      reads the paid cart and the user from the Redux store, builds the PDF
      receipt ([generatePDFBlob]): a date line, one table row per cart line
      with its line total, the grand total accumulated by a [forEach] loop
      and printed in every page footer ([didDrawPage]); [printPDF], the
      print button's handler, opens it and catches any exception.
    - [src/fe/src/routes/index.ts]: the route table ([publicRoutes]).
    - [src/src/components/Footer.tsx]: the live app's footer, static
      columns with the shop's contact details.

    The components interact through the event bus: a cart mutation (or a
    cart notice on the live chat) publishes ["updateCartNumber"]; every
    mounted Navbar then issues a [getCartByUser] request whose response,
    whenever it arrives, overwrites the count its badge renders.

    ** Files (in dependency order)

    - [Prelude] (this file): the [web_scope] notation of the exception
      monad [js_result] (for code that throws), [js_int_to_string] (how
      JavaScript prints an integer) with its reader [parse_int], the string
      readers [split_on] and [strip_prefix], the hint database [web]
      (filled by [Navbar] with the invariant lemmas of the cart model), and
      the generic lemmas on sums, filters and index updates the components
      share.
    - [EventBus]: the [Emitter] of [fe/src/eventEmitter] (repository code
      outside [src/], modelled from the spec and the EventEmitter
      contract: [on] appends, [off] removes the latest registration of the
      same function, [emit] runs the listeners registered when it starts, in
      order).  The classes [EventBus]/[EventBusLaws] are the interface the
      Navbar's proofs use; [Emitter] is the [gmap] implementation that
      discharges them.  [BusOp] traces, [bus_run] and the reference [live]
      state the token contract of spec section 4.1.
    - [CartApi]: [CardInfo], [GetUserInfoDto] and the backend of
      [getCartByUser] (outside [src/], modelled from the spec).
    - [Routes]: Module [RouteTable], [publicRoutes]/[privateRoutes] of
      routes/index.ts; the menu links and the ThankYou page link to its
      keys.
    - [Navbar]: Module [NavbarCart] models the cart effect of Navbar.tsx
      (lines 42-59) over a world holding the bus, the Navbar instances
      (keyed by the identity of their [handleEvent] closure, which captures
      the user of mount time), the [getCartByUser] requests in flight (sent,
      then served by the backend, then delivered, each at any time: the
      [step] relation interleaves them), the backend and the signed-in
      user.  [net_step] is the part of [step] the network drives.
    - [NavbarView]: Module [NavbarMenu] models the menu effect (lines
      61-77) with React's cleanup-then-effect order and one closure per
      render, and the desktop/mobile links; Module [NavbarView] models the
      JSX (lines 79-222) as a [View] record ([render]) and [navbar_view]
      renders the Navbar of a [NavbarCart] world with a [NavbarMenu] state.
    - [Receipt]: Module [ThankYou] models [generatePDFBlob] and [printPDF]
      (lines 25-104); the translation function [t] and the jsPDF page split
      are Section variables.  [Receipt], [receipt_spec] and [read_receipt]
      are the abstract receipt of spec section 6, its specification and the
      abstraction function of the refinement.
    - [ThankYouPage]: Module [ThankYouPage] models the store selectors
      (lines 16-21) and the page's JSX (lines 106-131).
    - [Speakers]: Module [SpeakerView] models SpeakerView.tsx ([speakers],
      the rendered children, [useMemo] over a store of Map objects that the
      provider replaces on every change).
    - [Footer]: Module [SiteFooter] models Footer.tsx (static columns).

    ** Theorems (claims C1-C22 of the manifest)

    - Bus and cart badge (C1-C15, [EventBus], [NavbarCart], [NavbarView]):
      the bus holds exactly the mounted Navbars' listeners in mount order
      (invariant by induction on [reachable]); every lawful bus meets the
      token contract (after any well-formed trace a publish calls exactly
      the live subscriptions, once each, in order); a publish makes each
      mounted Navbar send one request in that order; after settling, every
      count is the length of its captured user's cart (liveness: the
      settled world is reachable) and the rendered badge reads back as that
      number, absent at 0; a second refresh changes no count
      (idempotence); the network's steps are well founded (termination by
      the measure [weight]: 2 per unserved request, 1 per served one) and a
      run has between [m] and [2m] steps for [m] requests; two reachable
      executions where the badge is wrong with nothing in flight (a late
      response of the same Navbar overwrites a fresh one; a Navbar mounted
      before sign-in keeps fetching for no user), and the counterpart of
      the first: with one response per Navbar every arrival order gives
      each Navbar its own response's count; the exact effect of a
      response, of a failed request (the counts stay) and of a mount; zero
      residue after unmounting.
    - Receipt (C16-C17, [ThankYou]): [generatePDFBlob] refines the spec's
      receipt through the reader [read_receipt] (customer, date with the
      month from 1, rows read back through [DecimalString], [quantity *
      price] per line, the grand total on every footer); the [forEach]
      loop equals the reference (rows = map, total = sum).
    - Speaker view (C18-C20, [SpeakerView]): [speakers] is exactly the
      CONFERENCE participants in Map order; the memo is fresh in every
      state reached when the provider replaces Maps; React keys are unique.
    - Menu (C21-C22, [NavbarMenu], [NavbarView]): the document has a
      [mousedown] listener exactly while the menu is open and none after
      unmount, and the icon and class the menu renders follow it.

    The other definitions ([RouteTable], the language select, the sign-in
    controls, [ThankYouPage], [SiteFooter]) translate code whose behaviour
    is a constant or a direct read of its input; they are kept as the model
    the theorems above render through, with no theorem of their own.

    ** Bounds and fuel

    No definition uses fuel: every loop of the source is a traversal of a
    finite list, and [NavbarCart.settle] iterates once per request in
    flight.  The network's freedom is bounded instead by [net_run_bound]:
    at most two steps per request.  JavaScript numbers are [Z]: the
    receipt's arithmetic is exact integer arithmetic, which the double
    arithmetic of the source matches while the values stay below
    [2^53].  The jsPDF page split is any split of the rows in order into
    at least one page (Section hypotheses of [Receipt]).

    ** Not modelled

    Styling beyond the class strings the model keeps, the icon components,
    [DynamicPlaceholder] and [CouponCard] (rendered as opaque parts), the
    translations of i18n (the function [t] is a variable), the jsPDF drawing
    engine (fonts, logo, coordinates), the videosdk transport, and the
    import and export lines of the five files.  [logoutUser] of the cart
    API is not modelled: its code is outside [src/] and the spec says only
    that it invalidates the session.  The live session controller and the
    chat relay (Controls/Chat, outside [src/]) are not modelled: the spec
    describes them only by the behaviour it wants, so a transcription of
    that description would prove its own sentences. *)

From stdpp Require Export base list strings gmap.
From Stdlib Require Export ZArith Lia.
From Stdlib Require Import DecimalString DecimalZ Ascii.

Set Warnings "-clear-no-such-hyp".

Declare Scope web_scope.
Delimit Scope web_scope with web.
Open Scope web_scope.

(** ** Exceptions

    Code of the source that can throw (a [TypeError] on [null.name], a
    rejected promise) returns a [js_result]. *)

Inductive js_error :=
  | TypeError (msg : string)
  | FetchError
  | NotConnectedError.

Inductive js_result (A : Type) :=
  | JsOk (a : A)
  | JsThrow (e : js_error).
Arguments JsOk {A} a.
Arguments JsThrow {A} e.

Definition js_bind {A B} (c : js_result A) (k : A -> js_result B) : js_result B :=
  match c with
  | JsOk a => k a
  | JsThrow e => JsThrow e
  end.

Notation "x <-? c ;; k" := (js_bind c (fun x => k))
  (at level 100, c at next level, right associativity) : web_scope.

(** ** Generic lemmas *)

Fixpoint sumZ {A} (f : A -> Z) (l : list A) : Z :=
  match l with
  | [] => 0
  | x :: l' => (f x + sumZ f l')%Z
  end.

Lemma filter_seq_S (P : nat -> Prop) `{!∀ x, Decision (P x)} n :
  filter P (seq 0 (S n)) = filter P (seq 0 n) ++ (if decide (P n) then [n] else []).
Proof.
  rewrite seq_S, filter_app, filter_cons. simpl. by destruct (decide (P n)).
Qed.

Lemma filter_ext_in {A} (P Q : A -> Prop) `{!∀ x, Decision (P x)} `{!∀ x, Decision (Q x)} (l : list A) :
  (∀ x, x ∈ l -> P x <-> Q x) -> filter P l = filter Q l.
Proof.
  induction l as [|x l IH]; intros Hl; [done|].
  rewrite !filter_cons.
  assert (P x <-> Q x) by (apply Hl, elem_of_cons; by left).
  rewrite IH by (intros y Hy; apply Hl, elem_of_cons; by right).
  destruct (decide (P x)), (decide (Q x)); tauto.
Qed.

Lemma filter_id_in {A} (P : A -> Prop) `{!∀ x, Decision (P x)} (l : list A) :
  (∀ x, x ∈ l -> P x) -> filter P l = l.
Proof.
  induction l as [|x l IH]; intros Hl; [done|].
  rewrite filter_cons_True by (apply Hl, elem_of_cons; by left).
  f_equal. apply IH. intros y Hy. apply Hl, elem_of_cons. by right.
Qed.

Lemma filter_none_in {A} (P : A -> Prop) `{!∀ x, Decision (P x)} (l : list A) :
  (∀ x, x ∈ l -> ¬ P x) -> filter P l = [].
Proof.
  induction l as [|x l IH]; intros Hl; [done|].
  rewrite filter_cons_False by (apply Hl, elem_of_cons; by left).
  apply IH. intros y Hy. apply Hl, elem_of_cons. by right.
Qed.

(** An element of a list without duplicates is kept alone by the filter
    that selects it. *)
Lemma filter_eq_NoDup {A} `{!EqDecision A} (x : A) (l : list A) :
  NoDup l -> x ∈ l -> filter (fun y => y = x) l = [x].
Proof.
  induction 1 as [|y l Hy Hl IH]; [set_solver|]. intros Hx.
  destruct (decide (y = x)) as [->|Hne].
  - rewrite filter_cons_True by done. f_equal.
    apply filter_none_in. intros z Hz ->. contradiction.
  - rewrite filter_cons_False by done. apply IH. set_solver.
Qed.

(** ** Numbers as JavaScript prints them

    [String(n)] (and [`${n}`], [n + " VND"]) of an integer-valued number:
    the decimal numeral of the Standard Library's [DecimalString]. *)
Definition js_int_to_string (z : Z) : string := NilEmpty.string_of_int (Z.to_int z).

(** Reading a decimal numeral back. *)
Definition parse_int (s : string) : option Z := Z.of_int <$> NilEmpty.int_of_string s.

Lemma parse_int_js z : parse_int (js_int_to_string z) = Some z.
Proof. unfold parse_int, js_int_to_string. rewrite NilEmpty.isi. simpl. by rewrite DecimalZ.of_to. Qed.

(** ** Reading strings back

    [has_char c s] tests for [c]; [split_on c s] cuts [s] at every [c];
    [strip_prefix p s] is the rest of [s] after the prefix [p]. *)

Fixpoint has_char (c : ascii) (s : string) : bool :=
  match s with
  | EmptyString => false
  | String a s' => Ascii.eqb a c || has_char c s'
  end.

Fixpoint split_on (c : ascii) (s : string) : list string :=
  match s with
  | EmptyString => [EmptyString]
  | String a s' =>
      if Ascii.eqb a c then EmptyString :: split_on c s'
      else match split_on c s' with
           | x :: xs => String a x :: xs
           | [] => [String a EmptyString]
           end
  end.

Lemma split_on_none c s : has_char c s = false -> split_on c s = [s].
Proof.
  induction s as [|a s IH]; simpl; [done|]. intros [Ha Hs]%orb_false_iff.
  by rewrite Ha, IH.
Qed.

Lemma split_on_app c x y :
  has_char c x = false -> split_on c (x +:+ String c y) = x :: split_on c y.
Proof.
  induction x as [|a x IH]; simpl; intros Hx.
  - by rewrite Ascii.eqb_refl.
  - apply orb_false_iff in Hx as [Ha Hx]. by rewrite Ha, IH.
Qed.

Lemma split_on_sep c x y :
  has_char c x = false -> split_on c (x +:+ String c EmptyString +:+ y) = x :: split_on c y.
Proof. apply split_on_app. Qed.

Fixpoint strip_prefix (p s : string) : option string :=
  match p, s with
  | EmptyString, _ => Some s
  | String a p', String b s' => if Ascii.eqb a b then strip_prefix p' s' else None
  | String _ _, EmptyString => None
  end.

Lemma string_app_cons x (a b : string) : String x a +:+ b = String x (a +:+ b).
Proof. reflexivity. Qed.

Lemma string_app_assoc (a b c : string) : (a +:+ b) +:+ c = a +:+ (b +:+ c).
Proof. induction a as [|x a IH]; [done|]. by rewrite !string_app_cons, IH. Qed.

Lemma strip_prefix_app p s : strip_prefix p (p +:+ s) = Some s.
Proof. induction p as [|a p IH]; [done|]. rewrite string_app_cons. simpl. by rewrite Ascii.eqb_refl. Qed.

Lemma strip_prefix_label (l x : string) : strip_prefix (l +:+ ": ") (l +:+ ": " +:+ x) = Some x.
Proof. by rewrite <- string_app_assoc, strip_prefix_app. Qed.

(** ** Sums of weights over a list updated by index *)

(** Deleting past the end of a list leaves it unchanged. *)
Lemma delete_ge {A} (l : list A) i : length l <= i -> delete i l = l.
Proof.
  revert i. induction l as [|x l IH]; intros [|i] Hi; simpl in *; try done; [lia|].
  f_equal. apply IH. lia.
Qed.

Lemma list_sum_delete {A} (f : A -> nat) (l : list A) i x :
  l !! i = Some x -> list_sum (f <$> delete i l) + f x = list_sum (f <$> l).
Proof.
  intros Hi. rewrite <- (take_drop_middle l i x Hi) at 2.
  rewrite delete_take_drop, !fmap_app, fmap_cons, !list_sum_app. simpl (list_sum (_ :: _)). lia.
Qed.

Lemma list_sum_insert {A} (f : A -> nat) (l : list A) i x y :
  l !! i = Some x -> list_sum (f <$> <[i := y]> l) + f x = list_sum (f <$> l) + f y.
Proof.
  intros Hi. pose proof (lookup_lt_Some _ _ _ Hi) as Hlt.
  rewrite <- (take_drop_middle l i x Hi) at 2.
  rewrite (insert_take_drop l i y Hlt), !fmap_app, !fmap_cons, !list_sum_app.
  simpl (list_sum (_ :: _)). lia.
Qed.

Create HintDb web.
