(* ===== verification/EventBus.v ===== *)
(** * The process-wide event emitter

    [Emitter] of [fe/src/eventEmitter/EventEmitter] is code of the
    repository outside [src/]: Navbar.tsx only calls [Emitter.on],
    [Emitter.off] and (through other pages) [emit].  It is modelled from the
    spec (section 4.1) and the EventEmitter contract: [on] appends a
    listener to its topic, [off] removes the most recently added
    registration of that same function value, and [emit] calls, in order,
    the listeners registered when it starts.

    A listener is a closure; its identity is a [nat] ([Listener]).  The
    class [EventBus] with its laws [EventBusLaws] is the interface the
    clients' proofs rely on; [Emitter] implements it over a [gmap].
    Traces of [BusOp] (subscribe, unsubscribe, publish) state the spec's
    token contract, proved against the interface for every lawful bus. *)

From S2P Require Import Prelude.

Set Warnings "-clear-no-such-hyp".

Definition Topic := string.
Definition Listener := nat.

(** ** Removing one registration *)

Fixpoint remove_first (x : Listener) (l : list Listener) : list Listener :=
  match l with
  | [] => []
  | y :: l' => if decide (x = y) then l' else y :: remove_first x l'
  end.

(** [removeListener] scans from the end: the latest registration goes. *)
Definition remove_last (x : Listener) (l : list Listener) : list Listener :=
  reverse (remove_first x (reverse l)).

Lemma remove_first_NoDup x l :
  NoDup l -> remove_first x l = filter (fun y => y ≠ x) l.
Proof.
  induction 1 as [|y l Hy Hl IH]; simpl; [done|]. rewrite filter_cons.
  destruct (decide (x = y)) as [->|Hne].
  - rewrite decide_False by naive_solver. symmetry.
    apply filter_id_in. intros z Hz ->. contradiction.
  - rewrite decide_True by naive_solver. by rewrite IH.
Qed.

(** On a list without duplicates (each mount registers a fresh closure),
    removing the latest registration is removing the listener. *)
Lemma remove_last_NoDup x l :
  NoDup l -> remove_last x l = filter (fun y => y ≠ x) l.
Proof.
  intros Hl. unfold remove_last.
  rewrite remove_first_NoDup by (by rewrite reverse_Permutation).
  by rewrite filter_reverse, reverse_involutive.
Qed.

(** ** The interface *)

Class EventBus (B : Type) := {
  bus_empty : B;
  bus_on : Topic -> Listener -> B -> B;
  bus_off : Topic -> Listener -> B -> B;
  bus_listeners : B -> Topic -> list Listener
}.

Class EventBusLaws (B : Type) `{!EventBus B} : Prop := {
  listeners_empty t : bus_listeners bus_empty t = [];
  listeners_on t t' h b :
    bus_listeners (bus_on t h b) t' =
      if decide (t = t') then bus_listeners b t' ++ [h] else bus_listeners b t';
  listeners_off t t' h b :
    bus_listeners (bus_off t h b) t' =
      if decide (t = t') then remove_last h (bus_listeners b t') else bus_listeners b t'
}.

(** [emit]: the listeners registered when the call starts run in order,
    each on the state the previous one left. *)
Definition emit {B S} `{!EventBus B} (run : Listener -> S -> S) (t : Topic) (b : B) (s : S) : S :=
  fold_left (fun s h => run h s) (bus_listeners b t) s.

Section Laws.
Context `{EventBusLaws B}.

Lemma listeners_on_same t h b : bus_listeners (bus_on t h b) t = bus_listeners b t ++ [h].
Proof. rewrite listeners_on. by rewrite decide_True. Qed.

Lemma listeners_off_same t h b :
  bus_listeners (bus_off t h b) t = remove_last h (bus_listeners b t).
Proof. rewrite listeners_off. by rewrite decide_True. Qed.
End Laws.

(** ** Traces against the token contract

    The spec's contract (section 4.1) hands out a token per [subscribe]
    and ends that subscription on [unsubscribe(token)].  Every mount
    subscribes a fresh closure, so the listener is its own token.  A trace
    is a list of operations; [tokens_ok] says each token is subscribed once
    and only unsubscribed after its subscription (repeatedly, if the
    client likes: the spec wants that idempotent). *)

Inductive BusOp := Sub (h : Listener) | Unsub (h : Listener) | Pub.

#[global] Instance BusOp_eq_dec : EqDecision BusOp.
Proof. solve_decision. Defined.

Fixpoint tokens_ok (seen : list Listener) (ops : list BusOp) : bool :=
  match ops with
  | [] => true
  | Sub h :: ops' => bool_decide (h ∉ seen) && tokens_ok (seen ++ [h]) ops'
  | Unsub h :: ops' => bool_decide (h ∈ seen) && tokens_ok seen ops'
  | Pub :: ops' => tokens_ok seen ops'
  end.

(** The subscriptions of a trace, in order. *)
Definition subscribed (ops : list BusOp) : list Listener :=
  omap (fun o => match o with Sub h => Some h | _ => None end) ops.

(** The reference: the subscriptions whose token has not been used. *)
Definition live (ops : list BusOp) : list Listener :=
  filter (fun h => Unsub h ∉ ops) (subscribed ops).

(** The bus after a trace, on the topic [t]. *)
Definition bus_run {B} `{!EventBus B} (t : Topic) (b : B) (ops : list BusOp) : B :=
  fold_left (fun b o => match o with Sub h => bus_on t h b | Unsub h => bus_off t h b | Pub => b end) ops b.

(** A listener that records that it was called. *)
Definition record (h : Listener) (calls : list Listener) : list Listener := calls ++ [h].

Lemma tokens_ok_app seen l1 l2 :
  tokens_ok seen (l1 ++ l2) = tokens_ok seen l1 && tokens_ok (seen ++ subscribed l1) l2.
Proof.
  revert seen. induction l1 as [|[h|h|] l1 IH]; intros seen; simpl.
  - by rewrite app_nil_r.
  - rewrite IH, <- app_assoc. by destruct (bool_decide _).
  - rewrite IH. by destruct (bool_decide _).
  - apply IH.
Qed.

Lemma subscribed_app l1 l2 : subscribed (l1 ++ l2) = subscribed l1 ++ subscribed l2.
Proof. apply omap_app. Qed.

(** Under [tokens_ok], the subscriptions are distinct and every used
    token was subscribed before. *)
Lemma tokens_ok_NoDup seen ops :
  NoDup seen -> tokens_ok seen ops = true -> NoDup (seen ++ subscribed ops).
Proof.
  revert seen. induction ops as [|[h|h|] ops IH]; intros seen Hs Hok; simpl in *.
  - by rewrite app_nil_r.
  - apply andb_prop in Hok as [Hh%bool_decide_eq_true Hok].
    change (seen ++ h :: subscribed ops) with (seen ++ [h] ++ subscribed ops).
    rewrite app_assoc. apply IH; [|done].
    apply NoDup_app. split_and!; [done| |by apply NoDup_singleton]. set_solver.
  - apply andb_prop in Hok as [_ Hok]. by apply IH.
  - by apply IH.
Qed.

Lemma tokens_ok_unsub ops h : tokens_ok [] ops = true -> Unsub h ∈ ops -> h ∈ subscribed ops.
Proof.
  intros Hok Hin. apply list_elem_of_split in Hin as (l1 & l2 & ->).
  rewrite tokens_ok_app in Hok. apply andb_prop in Hok as [_ Hok]. simpl in Hok.
  apply andb_prop in Hok as [Hh%bool_decide_eq_true _]. rewrite subscribed_app. set_solver.
Qed.

Lemma fold_record l calls : fold_left (fun s h => record h s) l calls = calls ++ l.
Proof.
  revert calls. induction l as [|h l IH]; intros calls; simpl; [by rewrite app_nil_r|].
  unfold record. by rewrite IH, <- app_assoc.
Qed.

Section Contract.
Context `{EventBusLaws B}.

Lemma live_NoDup ops : tokens_ok [] ops = true -> NoDup (live ops).
Proof. intros Hok. apply NoDup_filter. exact (tokens_ok_NoDup [] ops (NoDup_nil_2) Hok). Qed.

(** The bus follows the token reference along every well-formed trace. *)
Lemma bus_run_listeners t ops :
  tokens_ok [] ops = true -> bus_listeners (bus_run t bus_empty ops) t = live ops.
Proof.
  induction ops as [|o ops IH] using rev_ind; intros Hok; [apply listeners_empty|].
  pose proof Hok as Hok'. rewrite tokens_ok_app in Hok. apply andb_prop in Hok as [Hops Ho].
  unfold bus_run. rewrite fold_left_app. fold (bus_run t bus_empty ops). simpl.
  unfold live. rewrite subscribed_app.
  destruct o as [h|h|]; simpl in Ho |- *.
  - rewrite listeners_on_same, IH by done. rewrite filter_app. f_equal.
    + apply filter_ext_in. intros x _. set_solver.
    + apply andb_prop in Ho as [Hh%bool_decide_eq_true _]. rewrite filter_cons_True; [done|].
      intros [Hu|Hu]%elem_of_app; [|set_solver]. apply Hh. by apply tokens_ok_unsub.
  - rewrite listeners_off_same, IH, remove_last_NoDup by auto using live_NoDup.
    unfold live. rewrite app_nil_r, list_filter_filter. apply filter_ext_in. intros x _.
    rewrite elem_of_app, list_elem_of_singleton. naive_solver.
  - rewrite IH by done. unfold live. rewrite app_nil_r. apply filter_ext_in. intros x _. set_solver.
Qed.

(** Every lawful bus meets the token contract: after a well-formed trace,
    a publish calls exactly the live subscriptions, in order, once each. *)
Lemma token_contract t ops :
  tokens_ok [] ops = true ->
  emit record t (bus_run t bus_empty ops) [] = live ops /\ NoDup (live ops).
Proof.
  intros Hok. split; [|by apply live_NoDup].
  unfold emit. rewrite fold_record. simpl. by apply bus_run_listeners.
Qed.

End Contract.

(** ** The implementation *)

Module Emitter.
Record t := mk { events : gmap string (list Listener) }.

Definition listeners (b : t) (ev : Topic) : list Listener :=
  default [] (events b !! ev).

Definition on (ev : Topic) (fn : Listener) (b : t) : t :=
  mk (<[ev := listeners b ev ++ [fn]]> (events b)).

Definition off (ev : Topic) (fn : Listener) (b : t) : t :=
  mk (<[ev := remove_last fn (listeners b ev)]> (events b)).

#[global] Instance emitter_bus : EventBus t :=
  {| bus_empty := mk ∅; bus_on := on; bus_off := off; bus_listeners := listeners |}.

Lemma listeners_insert ev ev' l b :
  default [] (<[ev := l]> (events b) !! ev') = if decide (ev = ev') then l else listeners b ev'.
Proof. unfold listeners. rewrite lookup_insert. by repeat case_decide. Qed.

#[global] Instance emitter_laws : EventBusLaws t.
Proof.
  split.
  - intros ev. done.
  - intros ev ev' h b. unfold bus_listeners, bus_on; simpl.
    unfold on, listeners at 1. simpl. rewrite listeners_insert. by case_decide; subst.
  - intros ev ev' h b. unfold bus_listeners, bus_off; simpl.
    unfold off, listeners at 1. simpl. rewrite listeners_insert. by case_decide; subst.
Qed.
End Emitter.
