(* ===== verification/CartApi.v ===== *)
(** * Cart records and the cart backend

    [CardInfo] and [GetUserInfoDto] are declared in [fe/src/types/types]
    and [getCartByUser] in [fe/src/api/axios], code of the repository
    outside [src/]; they are modelled from the uses in Navbar.tsx and
    ThankYou.tsx and from the spec (section 6: "GET cart by userId -> ordered
    list of {productId, productName, quantity, price}").  The backend is a
    map from user id to that user's ordered cart. *)

From S2P Require Import Prelude.

Record CardInfo := mkCardInfo {
  productId : Z;
  productName : string;
  quantity : Z;
  price : Z
}.

Record GetUserInfoDto := mkUser {
  user_id : Z;
  name : string
}.

Module Api.
Record Backend := mkBackend { carts : gmap Z (list CardInfo) }.

(** [getCartByUser(user?.id)]: a user the backend does not know, and the
    request made with [undefined], get the empty cart. *)
Definition getCartByUser (be : Backend) (uid : option Z) : list CardInfo :=
  match uid with
  | Some u => default [] (carts be !! u)
  | None => []
  end.

(** A cart mutation (add to cart, checkout) done by another page. *)
Definition set_cart (u : Z) (items : list CardInfo) (be : Backend) : Backend :=
  mkBackend (<[u := items]> (carts be)).
End Api.

(** The spec's other reading of the badge count: the total quantity. *)
Definition total_quantity (items : list CardInfo) : Z := sumZ quantity items.

(** The cart of the spec's scenario (section 8) and a signed-in user. *)
Definition tea : CardInfo := mkCardInfo 1 "Tea" 2 50000.
Definition matcha : CardInfo := mkCardInfo 2 "Matcha" 1 120000.
Definition alice : GetUserInfoDto := mkUser 7 "Alice".
