(* ===== verification/Routes.v ===== *)
(** * The route table

    [publicRoutes] and [privateRoutes] of [src/fe/src/routes/index.ts]:
    each entry pairs a path of [config.routes] (a key of the config object
    of [fe/src/config], outside [src/], here [RouteKey]) with the page
    component and its layout; the entry for the not-found page has no
    layout. *)

From S2P Require Import Prelude.

Module RouteTable.

(** The keys of [config.routes] the table uses, with the source's
    spelling where Rocq allows it (["forgot-pass"] is [forgot_pass]). *)
Inductive RouteKey :=
  | home | login | signup | product | contact | cart | live | stream | thank
  | forgot_pass | reset_pass | produc_detail | page_not_found.

#[global] Instance RouteKey_eq_dec : EqDecision RouteKey.
Proof. solve_decision. Defined.

Inductive Component :=
  | Home | LoginPage | SignUpPage | Product | Contact | CartPage | Watch | Live
  | ThankYou | ForgotPassword | ResetPassword | ProductDetail | PageNotFound.

Inductive Layout := DefaultLayout | SimpleHeaderLayout.

Record Route := mkRoute { path : RouteKey; component : Component; layout : option Layout }.

(** [publicRoutes] (lines 18-48). *)
Definition publicRoutes : list Route :=
  [mkRoute home Home (Some DefaultLayout);
   mkRoute login LoginPage (Some DefaultLayout);
   mkRoute signup SignUpPage (Some SimpleHeaderLayout);
   mkRoute product Product (Some DefaultLayout);
   mkRoute contact Contact (Some DefaultLayout);
   mkRoute cart CartPage (Some DefaultLayout);
   mkRoute live Watch (Some DefaultLayout);
   mkRoute stream Live (Some DefaultLayout);
   mkRoute thank ThankYou (Some DefaultLayout);
   mkRoute forgot_pass ForgotPassword (Some DefaultLayout);
   mkRoute reset_pass ResetPassword (Some DefaultLayout);
   mkRoute produc_detail ProductDetail (Some DefaultLayout);
   mkRoute page_not_found PageNotFound None].

(** [privateRoutes] (line 50). *)
Definition privateRoutes : list Route := [].

End RouteTable.
