(* ===== verification/Navbar.v ===== *)
(** * The Navbar: cart badge synchronisation

    Module [NavbarCart] models the first [useEffect] of
    [src/fe/src/components/Header/Navbar.tsx] (lines 42-59) with the
    [cartCount] state (line 19).  Every mount of a Navbar runs the effect
    once (its dependency list is empty): [fetchCart] is called if [user] is
    set, and a fresh closure [handleEvent] is registered on the
    ["updateCartNumber"] topic; the cleanup unregisters it.  The closure
    captures the [user] of the first render.

    The world holds the bus, the Navbar instances (keyed by the identity of
    their [handleEvent] closure), the [getCartByUser] requests in flight,
    the backend and the signed-in user of the Redux store.  Responses may
    arrive in any order ([step_resolve] picks any in-flight request): this
    is the asynchrony of [await getCartByUser(...)] at line 44.

    [net_step] is the part of [step] the network drives (serve, respond,
    fail); it is well founded, with at most two steps per request.  The
    rendering of the count (the badge) is in [NavbarView]. *)

From S2P Require Import Prelude EventBus CartApi.
From Stdlib Require Import Wf_nat.

Set Warnings "-clear-no-such-hyp".

Module NavbarCart.

Definition updateCartNumber : Topic := "updateCartNumber".

(** One mounted Navbar: the user its effect closure captured, its
    [cartCount] state, and whether it is still mounted. *)
Record Navbar := mkNavbar {
  nb_user : option GetUserInfoDto;
  nb_cartCount : nat;
  nb_mounted : bool
}.

(** A [getCartByUser(user?.id)] call in flight, issued by the closure
    [req_from]; [req_resp] is the cart the server answered with, once it
    has handled the request. *)
Record Request := mkRequest {
  req_from : Listener;
  req_user : option Z;
  req_resp : option (list CardInfo)
}.

Section Cart.
Context `{EventBusLaws B}.

Record World := mkWorld {
  w_bus : B;
  w_navbars : gmap Listener Navbar;
  w_next : Listener;
  w_pending : list Request;
  w_backend : Api.Backend;
  w_user : option GetUserInfoDto
}.

Definition set_bus b w := mkWorld b (w_navbars w) (w_next w) (w_pending w) (w_backend w) (w_user w).
Definition set_navbars m w := mkWorld (w_bus w) m (w_next w) (w_pending w) (w_backend w) (w_user w).
Definition set_pending p w := mkWorld (w_bus w) (w_navbars w) (w_next w) p (w_backend w) (w_user w).
Definition set_backend be w := mkWorld (w_bus w) (w_navbars w) (w_next w) (w_pending w) be (w_user w).
Definition set_user u w := mkWorld (w_bus w) (w_navbars w) (w_next w) (w_pending w) (w_backend w) u.

(** [fetchCart] (lines 43-46), up to its [await]: the request is sent. *)
Definition fetchCart (n : Listener) (user : option GetUserInfoDto) (w : World) : World :=
  set_pending (w_pending w ++ [mkRequest n (user_id <$> user) None]) w.

(** [handleEvent] (lines 50-52) of the Navbar whose closure is [n]: it
    calls [fetchCart] with the user it captured, with no check. *)
Definition handleEvent (n : Listener) (w : World) : World :=
  match w_navbars w !! n with
  | Some nb => fetchCart n (nb_user nb) w
  | None => w
  end.

(** The effect body (lines 42-55) on a new mount, with [cartCount]
    initialised to 0 (line 19); the closure identity is [w_next]. *)
Definition mount (w : World) : World :=
  let n := w_next w in
  let w1 := mkWorld (w_bus w) (<[n := mkNavbar (w_user w) 0 true]> (w_navbars w))
                    (S n) (w_pending w) (w_backend w) (w_user w) in
  let w2 := match w_user w with Some _ => fetchCart n (w_user w) w1 | None => w1 end in
  set_bus (bus_on updateCartNumber n (w_bus w2)) w2.

(** The cleanup (lines 56-58) when the Navbar [n] unmounts. *)
Definition unmount (n : Listener) (w : World) : World :=
  let w1 := set_bus (bus_off updateCartNumber n (w_bus w)) w in
  set_navbars (alter (fun nb => mkNavbar (nb_user nb) (nb_cartCount nb) false) n (w_navbars w1)) w1.

(** [Emitter.emit("updateCartNumber")], as a page does after a cart
    mutation: every registered [handleEvent] runs. *)
Definition publish (w : World) : World :=
  emit handleEvent updateCartNumber (w_bus w) w.

(** [setCartCount(listCartPay.length)] (line 45) in the Navbar [n]; React
    drops the update of an unmounted component. *)
Definition setCartCount (n : Listener) (c : nat) (w : World) : World :=
  set_navbars (alter (fun nb => if nb_mounted nb then mkNavbar (nb_user nb) c true else nb)
                     n (w_navbars w)) w.

(** The server handles the [i]-th request: it reads the cart now. *)
Definition serve (i : nat) (w : World) : World :=
  match w_pending w !! i with
  | Some (mkRequest n u None) =>
      set_pending (<[i := mkRequest n u (Some (Api.getCartByUser (w_backend w) u))]> (w_pending w)) w
  | _ => w
  end.

(** The response to the [i]-th request arrives and [fetchCart] resumes. *)
Definition resolve (i : nat) (w : World) : World :=
  match w_pending w !! i with
  | Some (mkRequest n _ (Some listCartPay)) =>
      setCartCount n (length listCartPay) (set_pending (delete i (w_pending w)) w)
  | _ => w
  end.

(** The [i]-th request fails: the promise of [fetchCart] rejects and no
    state changes (the rejection is not handled). *)
Definition reject (i : nat) (w : World) : World :=
  match w_pending w !! i with
  | Some _ => set_pending (delete i (w_pending w)) w
  | None => w
  end.

Definition init (be : Api.Backend) : World := mkWorld bus_empty ∅ 0 [] be None.

Inductive step : World -> World -> Prop :=
  | step_mount w : step w (mount w)
  | step_unmount w n nb :
      w_navbars w !! n = Some nb -> nb_mounted nb = true -> step w (unmount n w)
  | step_publish w : step w (publish w)
  | step_serve w i r : w_pending w !! i = Some r -> step w (serve i w)
  | step_resolve w i r : w_pending w !! i = Some r -> step w (resolve i w)
  | step_reject w i r : w_pending w !! i = Some r -> step w (reject i w)
  | step_backend w u items : step w (set_backend (Api.set_cart u items (w_backend w)) w)
  | step_auth w u : step w (set_user u w).

Inductive reachable : World -> Prop :=
  | reachable_init be : reachable (init be)
  | reachable_step w w' : reachable w -> step w w' -> reachable w'.

(** ** Observations *)

Definition is_mounted (w : World) (n : Listener) : bool :=
  match w_navbars w !! n with Some nb => nb_mounted nb | None => false end.

(** The mounted Navbars, in mount order. *)
Definition mounted (w : World) : list Listener :=
  filter (fun n => is_mounted w n = true) (seq 0 (w_next w)).

(** The user id the closure [n] captured at mount. *)
Definition captured_uid (w : World) (n : Listener) : option Z :=
  match w_navbars w !! n with Some nb => user_id <$> nb_user nb | None => None end.

(** The request the closure [n] sends when it runs. *)
Definition request_of (w : World) (n : Listener) : Request :=
  mkRequest n (captured_uid w n) None.

Definition count_of (w : World) (n : Listener) : option nat :=
  nb_cartCount <$> w_navbars w !! n.

(** The well-formedness invariant: no closure beyond [w_next], and the bus
    holds exactly the closures of the mounted Navbars, in mount order. *)
Definition wf (w : World) : Prop :=
  (∀ n, w_next w <= n -> w_navbars w !! n = None) /\
  bus_listeners (w_bus w) updateCartNumber = mounted w.

(** ** Frame lemmas *)

Lemma mounted_ext w w' :
  w_next w = w_next w' -> (∀ k, is_mounted w k = is_mounted w' k) -> mounted w = mounted w'.
Proof.
  intros Hn Hk. unfold mounted. rewrite Hn. apply filter_ext_in. intros k _. by rewrite Hk.
Qed.

Lemma mounted_NoDup w : NoDup (mounted w).
Proof. apply NoDup_filter, NoDup_seq. Qed.

Lemma elem_of_mounted w n : n ∈ mounted w <-> n < w_next w /\ is_mounted w n = true.
Proof. unfold mounted. rewrite list_elem_of_filter, elem_of_seq. split; intros; split_and!; naive_solver lia. Qed.

Lemma wf_frame w w' :
  w_next w' = w_next w -> w_navbars w' = w_navbars w -> w_bus w' = w_bus w -> wf w -> wf w'.
Proof.
  intros Hn Hm Hb [Hdom Hbus]. split.
  - intros n. rewrite Hm, Hn. apply Hdom.
  - rewrite Hb, Hbus. apply mounted_ext; [done|]. intros k. unfold is_mounted. by rewrite Hm.
Qed.

(** The listeners only touch the requests in flight. *)
Lemma handleEvents_pending (L : list Listener) w :
  ∃ p, fold_left (fun w h => handleEvent h w) L w = set_pending p w.
Proof.
  revert w. induction L as [|h L IH]; intros w; simpl.
  - exists (w_pending w). by destruct w.
  - destruct (IH (handleEvent h w)) as [p ->]. exists p.
    unfold handleEvent; destruct (w_navbars w !! h); by destruct w.
Qed.

Lemma handleEvent_some n nb w :
  w_navbars w !! n = Some nb -> handleEvent n w = set_pending (w_pending w ++ [request_of w n]) w.
Proof. intros Hn. unfold handleEvent, fetchCart, request_of, captured_uid. by rewrite Hn. Qed.

(** Each listener of [L] (all of them Navbars of the world) sends its
    request, in the order of [L]. *)
Lemma handleEvents_requests (L : list Listener) w :
  (∀ n, n ∈ L -> is_Some (w_navbars w !! n)) ->
  fold_left (fun w h => handleEvent h w) L w = set_pending (w_pending w ++ map (request_of w) L) w.
Proof.
  revert w. induction L as [|h L IH]; intros w HL; simpl.
  - rewrite app_nil_r. by destruct w.
  - destruct (HL h) as [nb Hnb]; [set_solver|].
    rewrite (handleEvent_some h nb) by done. rewrite IH.
    + simpl. by rewrite <- app_assoc.
    + intros n Hn. apply HL. set_solver.
Qed.

Lemma setCartCount_mounted n c w k : is_mounted (setCartCount n c w) k = is_mounted w k.
Proof.
  unfold is_mounted, setCartCount. simpl. rewrite lookup_alter.
  case_decide; [subst|done].
  destruct (w_navbars w !! k) as [[u c0 []]|]; reflexivity.
Qed.

(** ** The invariant *)

Lemma wf_init be : wf (init be).
Proof.
  split; [done|]. simpl. rewrite listeners_empty. done.
Qed.

Lemma wf_mount w : wf w -> wf (mount w).
Proof.
  intros [Hdom Hbus].
  assert (Hnav : w_navbars (mount w) = <[w_next w := mkNavbar (w_user w) 0 true]> (w_navbars w))
    by (unfold mount; by destruct (w_user w)).
  assert (Hnext : w_next (mount w) = S (w_next w)) by (unfold mount; by destruct (w_user w)).
  assert (Hb : w_bus (mount w) = bus_on updateCartNumber (w_next w) (w_bus w))
    by (unfold mount; by destruct (w_user w)).
  split.
  - intros n Hn. rewrite Hnav, lookup_insert_ne by lia. apply Hdom. lia.
  - rewrite Hb, listeners_on_same, Hbus. unfold mounted at 2. rewrite Hnext, filter_seq_S.
    rewrite decide_True by (unfold is_mounted; by rewrite Hnav, lookup_insert_eq).
    f_equal. apply filter_ext_in. intros k Hk%elem_of_seq.
    unfold is_mounted. rewrite Hnav, lookup_insert_ne by lia. done.
Qed.

Lemma wf_unmount n w : wf w -> wf (unmount n w).
Proof.
  intros [Hdom Hbus]. split.
  - intros k Hk. simpl. apply lookup_alter_None. by apply Hdom.
  - simpl. rewrite listeners_off_same, Hbus, remove_last_NoDup by apply mounted_NoDup.
    unfold mounted. simpl. rewrite list_filter_filter. apply filter_ext_in. intros k _.
    unfold is_mounted. simpl. rewrite lookup_alter.
    case_decide as Hnk; [subst|]; destruct (w_navbars w !! k); simpl; naive_solver.
Qed.

Lemma wf_step w w' : step w w' -> wf w -> wf w'.
Proof.
  intros Hs Hw. destruct Hs.
  - by apply wf_mount.
  - by apply wf_unmount.
  - unfold publish, emit. destruct (handleEvents_pending (bus_listeners (w_bus w) updateCartNumber) w)
      as [p ->]. by apply wf_frame with w.
  - unfold serve. by destruct (w_pending w !! i) as [[? ? []]|].
  - unfold resolve. destruct (w_pending w !! i) as [[? ? []]|]; try done.
    destruct Hw as [Hdom Hbus]. split.
    + intros k Hk. simpl. apply lookup_alter_None. by apply Hdom.
    + simpl. rewrite Hbus. apply mounted_ext; [done|]. intros k.
      by rewrite setCartCount_mounted.
  - unfold reject. rewrite H0. by apply wf_frame with w.
  - by apply wf_frame with w.
  - by apply wf_frame with w.
Qed.

Lemma reachable_wf w : reachable w -> wf w.
Proof. induction 1; eauto using wf_init, wf_step. Qed.

(** ** Settling the requests in flight

    [settle] lets the server handle the oldest request and its response
    arrive, until none is left: the first-in first-out schedule, with the
    backend unchanged meanwhile. *)

Definition settle_one (w : World) : World := resolve 0 (serve 0 w).

Definition settle (w : World) : World := Nat.iter (length (w_pending w)) settle_one w.

(** The cart a request is (or will be, if served now) answered with. *)
Definition answer (be : Api.Backend) (r : Request) : list CardInfo :=
  match req_resp r with Some items => items | None => Api.getCartByUser be (req_user r) end.

Lemma settle_one_cons w r rs :
  w_pending w = r :: rs ->
  settle_one w = setCartCount (req_from r) (length (answer (w_backend w) r)) (set_pending rs w).
Proof.
  intros Hp. unfold settle_one, serve, resolve, answer. rewrite Hp.
  destruct r as [n u [items|]]; simpl; rewrite ?Hp; done.
Qed.

Lemma settle_fold w :
  settle w = fold_left (fun w' r => setCartCount (req_from r) (length (answer (w_backend w) r)) w')
                       (w_pending w) (set_pending [] w).
Proof.
  unfold settle. remember (w_pending w) as rs eqn:Hrs. revert w Hrs.
  induction rs as [|r rs IH]; intros w Hrs.
  - destruct w; simpl in *; by subst.
  - change (length (r :: rs)) with (S (length rs)).
    rewrite Nat.iter_succ_r, (settle_one_cons w r rs) by done. rewrite IH by done. done.
Qed.

Lemma count_of_setCartCount n c w k :
  count_of (setCartCount n c w) k =
    if decide (n = k) then (if is_mounted w k then Some c else count_of w k) else count_of w k.
Proof.
  unfold count_of, setCartCount, is_mounted. simpl. rewrite lookup_alter.
  case_decide; [subst|done]. destruct (w_navbars w !! k) as [[u c0 []]|]; done.
Qed.

(** The responses to the requests [rs] arrive in the order of [rs] (the
    backend answering as [be] does) and each [fetchCart] resumes with its
    [setCartCount] (line 45). *)
Definition deliver (be : Api.Backend) (rs : list Request) (w : World) : World :=
  fold_left (fun w r => setCartCount (req_from r) (length (answer be r)) w) rs w.

(** The count a mounted Navbar shows after a run of responses is the
    length of the last response addressed to it. *)
Lemma deliveries_count be (rs : list Request) w n :
  is_mounted w n = true ->
  count_of (fold_left (fun w r => setCartCount (req_from r) (length (answer be r)) w) rs w) n =
    match last (filter (fun r => req_from r = n) rs) with
    | Some r => Some (length (answer be r))
    | None => count_of w n
    end.
Proof.
  intros Hm. induction rs as [|r rs IH] using rev_ind; [done|].
  rewrite fold_left_app, filter_app, last_app, filter_cons, filter_nil. simpl.
  rewrite count_of_setCartCount.
  assert (Hm' : is_mounted (fold_left (fun w r => setCartCount (req_from r) (length (answer be r)) w) rs w) n = true).
  { clear IH. revert w Hm. induction rs as [|r' rs IH']; intros w Hm; [done|].
    simpl. apply IH'. by rewrite setCartCount_mounted. }
  rewrite Hm'. by case_decide.
Qed.

Lemma deliveries_pending be (rs : list Request) w :
  w_pending (fold_left (fun w r => setCartCount (req_from r) (length (answer be r)) w) rs w) =
  w_pending w.
Proof. revert w. induction rs as [|r rs IH]; intros w; simpl; [done|]. by rewrite IH. Qed.

Lemma requests_from n (w : World) L :
  NoDup L -> n ∈ L -> filter (fun r => req_from r = n) (map (request_of w) L) = [request_of w n].
Proof.
  intros HL Hn. transitivity (map (request_of w) (filter (fun k => k = n) L)).
  - clear. induction L as [|k L IH]; [done|]. simpl. rewrite !filter_cons. simpl.
    repeat case_decide; simpl; by rewrite IH.
  - by rewrite filter_eq_NoDup.
Qed.

Lemma unmount_mounted n w k :
  is_mounted (unmount n w) k = is_mounted w k && bool_decide (k ≠ n).
Proof.
  unfold is_mounted, unmount. simpl. rewrite lookup_alter.
  case_decide as Hnk; [subst|]; destruct (w_navbars w !! k); simpl;
    repeat case_bool_decide; try destruct (nb_mounted _); naive_solver.
Qed.

Lemma unmounts_mounted L w k :
  is_mounted (fold_left (fun w n => unmount n w) L w) k = true -> is_mounted w k = true /\ k ∉ L.
Proof.
  revert w. induction L as [|n L IH]; intros w Hk; simpl in *; [set_solver|].
  apply IH in Hk as [Hk HL]. rewrite unmount_mounted in Hk.
  apply andb_prop in Hk as [Hk Hn%bool_decide_eq_true]. set_solver.
Qed.

Lemma wf_unmounts L w : wf w -> wf (fold_left (fun w n => unmount n w) L w).
Proof. revert w. induction L; simpl; auto using wf_unmount. Qed.

Lemma wf_elem_of_mounted w n : wf w -> is_mounted w n = true -> n ∈ mounted w.
Proof.
  intros [Hdom _] Hn. apply elem_of_mounted. split; [|done].
  destruct (decide (n < w_next w)) as [|Hge]; [done|].
  unfold is_mounted in Hn. rewrite Hdom in Hn by lia. done.
Qed.

#[local] Hint Resolve mounted_NoDup wf_elem_of_mounted reachable_wf : web.

Lemma publish_wf w :
  wf w -> publish w = set_pending (w_pending w ++ map (request_of w) (mounted w)) w.
Proof.
  intros [_ Hbus]. unfold publish, emit. rewrite Hbus.
  apply handleEvents_requests. intros n Hn%elem_of_mounted. unfold is_mounted in Hn.
  destruct (w_navbars w !! n); naive_solver.
Qed.

Lemma reachable_settle_one w : reachable w -> w_pending w ≠ [] -> reachable (settle_one w).
Proof.
  intros Hr Hp. destruct (w_pending w) as [|r rs] eqn:Hw; [done|].
  assert (Hs : reachable (serve 0 w)) by (eapply reachable_step; [done|]; eapply step_serve; by rewrite Hw).
  eapply reachable_step; [exact Hs|]. destruct (w_pending (serve 0 w) !! 0) as [r'|] eqn:Hr'.
  - by eapply step_resolve.
  - unfold serve in Hr'. rewrite Hw in Hr'. destruct r as [? ? []]; simpl in Hr'; by rewrite ?Hw in Hr'.
Qed.

Lemma reachable_settle w : reachable w -> reachable (settle w).
Proof.
  unfold settle. remember (w_pending w) as rs eqn:Hrs. revert w Hrs.
  induction rs as [|r rs IH]; intros w Hrs Hw; [done|].
  change (length (r :: rs)) with (S (length rs)). rewrite Nat.iter_succ_r.
  apply IH.
  - rewrite (settle_one_cons w r rs) by done. done.
  - apply reachable_settle_one; [done|]. by rewrite <- Hrs.
Qed.

(** ** The network drains

    [net_step] is the part of [step] the network drives: the server
    handles a request it has not handled yet, the response to a handled
    request arrives, or a request fails.  A request weighs 2 before it is
    served and 1 after; every network step lowers the total weight. *)

Inductive net_step : World -> World -> Prop :=
  | net_serve w i n u : w_pending w !! i = Some (mkRequest n u None) -> net_step w (serve i w)
  | net_resolve w i n u items :
      w_pending w !! i = Some (mkRequest n u (Some items)) -> net_step w (resolve i w)
  | net_reject w i r : w_pending w !! i = Some r -> net_step w (reject i w).

Definition req_weight (r : Request) : nat := match req_resp r with None => 2 | Some _ => 1 end.

Definition weight (w : World) : nat := list_sum (req_weight <$> w_pending w).

Lemma net_step_step w w' : net_step w w' -> step w w'.
Proof. destruct 1; eauto using step. Qed.

Lemma net_step_weight w w' : net_step w w' -> weight w' < weight w.
Proof.
  unfold weight. destruct 1 as [w i n u Hi|w i n u items Hi|w i r Hi];
    [unfold serve|unfold resolve|unfold reject]; rewrite Hi; cbn [w_pending set_pending set_navbars setCartCount].
  - pose proof (list_sum_insert req_weight _ i _ (mkRequest n u (Some (Api.getCartByUser (w_backend w) u))) Hi).
    cbn [req_weight req_resp] in *. lia.
  - pose proof (list_sum_delete req_weight _ i _ Hi). cbn [req_weight req_resp] in *. lia.
  - pose proof (list_sum_delete req_weight _ i _ Hi). destruct r as [? ? []]; cbn [req_weight req_resp] in *; lia.
Qed.

(** A network step removes at most one request. *)
Lemma net_step_length w w' : net_step w w' -> length (w_pending w) <= S (length (w_pending w')).
Proof.
  destruct 1 as [w i n u Hi|w i n u items Hi|w i r Hi];
    [unfold serve|unfold resolve|unfold reject]; rewrite Hi; cbn [w_pending set_pending set_navbars setCartCount];
    rewrite ?length_insert, ?length_delete by eauto using lookup_lt_Some; lia.
Qed.

Lemma weight_le w : length (w_pending w) <= weight w <= 2 * length (w_pending w).
Proof.
  unfold weight. induction (w_pending w) as [|[? ? []] rs IH]; [done| |];
    rewrite fmap_cons; simpl (list_sum (_ :: _)); cbn [length req_weight req_resp]; lia.
Qed.

(** Every request in flight can make progress. *)
Lemma net_step_progress w r : w_pending w !! 0 = Some r -> ∃ w', net_step w w'.
Proof. intros Hr. eexists. by eapply net_reject. Qed.

(** After a publish and the first-in first-out settling, no request is
    left and every mounted Navbar shows the length of its captured user's
    cart. *)
Lemma settle_publish_pending w : wf w -> w_pending (settle (publish w)) = [].
Proof. intros Hw. by rewrite settle_fold, (publish_wf w Hw), deliveries_pending. Qed.

Lemma settle_publish_count w n :
  wf w -> is_mounted w n = true ->
  count_of (settle (publish w)) n = Some (length (Api.getCartByUser (w_backend w) (captured_uid w n))).
Proof.
  intros Hw Hn. rewrite settle_fold, (publish_wf w Hw), deliveries_count by done. simpl.
  rewrite filter_app, requests_from, last_app; auto with web.
Qed.

Lemma captured_uid_setCartCount n c w k : captured_uid (setCartCount n c w) k = captured_uid w k.
Proof.
  unfold captured_uid, setCartCount. simpl. rewrite lookup_alter.
  case_decide; [subst|done]. by destruct (w_navbars w !! k) as [[u c0 []]|].
Qed.

(** Responses touch the counts only: the backend, the mount flags and the
    captured users stay. *)
Lemma deliveries_frame be (rs : list Request) w :
  let w' := fold_left (fun w r => setCartCount (req_from r) (length (answer be r)) w) rs w in
  w_backend w' = w_backend w /\ (∀ k, is_mounted w' k = is_mounted w k /\ captured_uid w' k = captured_uid w k).
Proof.
  revert w. induction rs as [|r rs IH]; intros w; simpl; [done|].
  destruct (IH (setCartCount (req_from r) (length (answer be r)) w)) as [Hb Hk]. split; [done|].
  intros k. rewrite (proj1 (Hk k)), (proj2 (Hk k)).
  split; [apply setCartCount_mounted|apply captured_uid_setCartCount].
Qed.

Lemma settle_publish_frame w :
  wf w ->
  w_backend (settle (publish w)) = w_backend w /\
  (∀ k, is_mounted (settle (publish w)) k = is_mounted w k /\
        captured_uid (settle (publish w)) k = captured_uid w k).
Proof. intros Hw. rewrite settle_fold, (publish_wf w Hw). exact (deliveries_frame _ _ _). Qed.

(** A Navbar that is not mounted keeps its count whatever arrives. *)
Lemma deliver_unmounted be rs w k :
  is_mounted w k = false -> count_of (deliver be rs w) k = count_of w k.
Proof.
  unfold deliver. revert w. induction rs as [|r rs IH]; intros w Hk; simpl; [done|].
  rewrite IH by (by rewrite setCartCount_mounted).
  rewrite count_of_setCartCount, Hk. by case_decide.
Qed.

(** When no two responses are for the same Navbar, the responses for the
    Navbar of [r] are [r] alone. *)
Lemma filter_from_single (rs : list Request) r :
  NoDup (req_from <$> rs) -> r ∈ rs -> filter (fun x => req_from x = req_from r) rs = [r].
Proof.
  induction rs as [|x rs IH]; intros Hnd Hr; [set_solver|].
  rewrite fmap_cons in Hnd. apply NoDup_cons in Hnd as [Hx Hnd].
  apply elem_of_cons in Hr as [->|Hr].
  - rewrite filter_cons_True by done. f_equal. apply filter_none_in.
    intros y Hy Heq. apply Hx. rewrite <- Heq. by apply list_elem_of_fmap_2.
  - rewrite filter_cons_False; [by apply IH|]. intros Heq. apply Hx. rewrite Heq.
    by apply list_elem_of_fmap_2.
Qed.

(** ** Properties of the cart badge synchronisation *)

(** C1 (invariant).  In every reachable world the ["updateCartNumber"]
    topic holds exactly one listener per mounted Navbar, in mount order:
    the cleanup of the effect leaks no listener, and no listener of an
    unmounted Navbar can run. *)
Theorem listeners_mounted w :
  reachable w ->
  bus_listeners (w_bus w) updateCartNumber = mounted w /\
  NoDup (bus_listeners (w_bus w) updateCartNumber).
Proof.
  intros Hr. destruct (reachable_wf w Hr) as [_ Hbus]. rewrite Hbus. split; [done|].
  apply mounted_NoDup.
Qed.

(** C15 (safety).  Once every mounted Navbar has unmounted, no listener is
    left on the topic: mount/unmount cycles leave zero residual
    subscriptions. *)
Theorem unmount_all_no_residue w :
  reachable w ->
  bus_listeners (w_bus (fold_left (fun w n => unmount n w) (mounted w) w)) updateCartNumber = [].
Proof.
  intros Hr. destruct (wf_unmounts (mounted w) w (reachable_wf w Hr)) as [_ ->].
  apply filter_none_in. intros k _ Hk.
  apply unmounts_mounted in Hk as [Hk Hn]. apply Hn, wf_elem_of_mounted; auto with web.
Qed.

(** C14 (functional).  A mount registers its fresh closure after the
    listeners already there, starts its badge at 0, and sends a request
    only when a user is signed in (the [if (user)] guard of line 47). *)
Theorem mount_spec w :
  bus_listeners (w_bus (mount w)) updateCartNumber =
    bus_listeners (w_bus w) updateCartNumber ++ [w_next w] /\
  count_of (mount w) (w_next w) = Some 0 /\
  w_pending (mount w) =
    w_pending w ++ match w_user w with
                   | Some u => [mkRequest (w_next w) (Some (user_id u)) None]
                   | None => []
                   end.
Proof.
  unfold mount, count_of.
  destruct (w_user w); simpl; rewrite listeners_on_same, lookup_insert_eq; simpl;
    rewrite ?app_nil_r; done.
Qed.

(** C3 (functional).  Publishing ["updateCartNumber"] runs the
    [handleEvent] of every mounted Navbar exactly once, in mount
    (subscription) order: each sends one request carrying the user id its
    closure captured at mount, and nothing else of the world changes. *)
Theorem publish_requests w :
  reachable w ->
  publish w = set_pending (w_pending w ++ map (request_of w) (mounted w)) w.
Proof. intros Hr. apply publish_wf, reachable_wf, Hr. Qed.

(** C12 (functional).  When the response to a request of the Navbar [n]
    arrives, the request leaves the queue and, if [n] is still mounted,
    its badge becomes the number of cart lines ([listCartPay.length]), not
    the total quantity; an unmounted Navbar and every other Navbar keep
    their count. *)
Theorem resolve_spec w i n u items :
  w_pending w !! i = Some (mkRequest n u (Some items)) ->
  w_pending (resolve i w) = delete i (w_pending w) /\
  count_of (resolve i w) n = (if is_mounted w n then Some (length items) else count_of w n) /\
  (∀ k, k ≠ n -> count_of (resolve i w) k = count_of w k).
Proof.
  intros Hi. unfold resolve. rewrite Hi. split; [done|]. split.
  - rewrite count_of_setCartCount, decide_True by done. done.
  - intros k Hk. rewrite count_of_setCartCount, decide_False by done. done.
Qed.

(** C13 (error).  A failed [getCartByUser] (the rejected promise of
    [fetchCart], which nothing catches) only drops the request: every
    Navbar keeps the count it shows, mounted or not, and the other
    requests stay in flight in their order. *)
Theorem reject_spec w i :
  w_pending (reject i w) = delete i (w_pending w) /\
  (∀ k, count_of (reject i w) k = count_of w k) /\
  mounted (reject i w) = mounted w.
Proof.
  unfold reject. destruct (w_pending w !! i) as [r|] eqn:Hi; [done|].
  rewrite delete_ge by (by apply lookup_ge_None). done.
Qed.

(** C2 (refinement).  The topic the Navbars share meets the token
    contract of spec section 4.1 and its first testable property, on any
    lawful bus: after any well-formed trace of subscribes, unsubscribes
    (repeated at will) and publishes, a publish of ["updateCartNumber"]
    calls exactly the listeners whose token has not been used, in
    subscription order, each exactly once; no listener runs after its
    unsubscribe. *)
Theorem publish_delivers_live ops :
  tokens_ok [] ops = true ->
  emit record updateCartNumber (bus_run updateCartNumber bus_empty ops) [] = live ops /\
  NoDup (live ops).
Proof. apply token_contract. Qed.

(** C10 (safety).  The race of C9 needs two requests of the same Navbar:
    when the responses in flight are for distinct Navbars, in whatever
    order they arrive each mounted Navbar ends with the line count of its
    own response, and a Navbar with no response keeps its count. *)
Theorem responses_any_order be rs rs' w :
  NoDup (req_from <$> rs) -> rs ≡ₚ rs' ->
  (∀ r, r ∈ rs -> is_mounted w (req_from r) = true ->
     count_of (deliver be rs' w) (req_from r) = Some (length (answer be r))) /\
  (∀ k, k ∉ req_from <$> rs -> count_of (deliver be rs' w) k = count_of w k).
Proof.
  intros Hnd Hp. assert (Hnd' : NoDup (req_from <$> rs')) by (by rewrite <- Hp).
  split.
  - intros r Hr Hm. unfold deliver. rewrite deliveries_count by done.
    rewrite (filter_from_single rs' r Hnd') by (by rewrite <- Hp). done.
  - intros k Hk. destruct (is_mounted w k) eqn:Hm; [|by apply deliver_unmounted].
    unfold deliver. rewrite deliveries_count by done.
    rewrite filter_none_in; [done|]. intros y Hy <-. apply Hk, list_elem_of_fmap_2. by rewrite Hp.
Qed.

(** C4 (liveness).  After a publish, once the server has answered the
    requests in flight and the responses have arrived in the order they
    were sent (with no cart mutation in between), every Navbar that was
    mounted shows the number of lines of the cart of the user its closure
    captured.  The settled world is reachable and has no request left. *)
Theorem publish_settles w :
  reachable w ->
  reachable (settle (publish w)) /\
  w_pending (settle (publish w)) = [] /\
  (∀ n, is_mounted w n = true ->
     count_of (settle (publish w)) n =
       Some (length (Api.getCartByUser (w_backend w) (captured_uid w n)))).
Proof.
  intros Hr. split.
  { apply reachable_settle. eapply reachable_step; [done|constructor]. }
  split; [by apply settle_publish_pending, reachable_wf|].
  intros n Hn. apply settle_publish_count; [by apply reachable_wf|done].
Qed.

(** C6 (functional).  Refreshing is idempotent (spec section 8): with
    no cart mutation in between, a second publish, once settled, leaves
    every mounted Navbar with the count the first one gave it. *)
Theorem refresh_idempotent w n :
  reachable w -> is_mounted w n = true ->
  count_of (settle (publish (settle (publish w)))) n = count_of (settle (publish w)) n.
Proof.
  intros Hr Hn. pose proof (reachable_wf w Hr) as Hw.
  assert (Hw1 : wf (settle (publish w))).
  { apply reachable_wf, reachable_settle. eapply reachable_step; [done|constructor]. }
  destruct (settle_publish_frame w Hw) as [Hb Hk]. destruct (Hk n) as [Hm Hu].
  rewrite (settle_publish_count (settle (publish w))), (settle_publish_count w) by (rewrite ?Hm; done).
  by rewrite Hb, Hu.
Qed.

(** C7 (termination).  The network cannot run forever: [net_step] is
    well founded, so every run of serves, responses and failures with no
    new request ends, and it ends only when no request is left in flight. *)
Theorem net_terminates :
  well_founded (fun w' w => net_step w w') /\
  (∀ w, (∀ w', ¬ net_step w w') -> w_pending w = []).
Proof.
  split.
  - apply (well_founded_lt_compat _ weight). intros w' w. apply net_step_weight.
  - intros w Hw. destruct (w_pending w) as [|r rs] eqn:Hp; [done|].
    destruct (net_step_progress w r) as [w' Hs]; [by rewrite Hp|]. by destruct (Hw w').
Qed.

(** C8 (bounds).  A run of [k] network steps from a world with [m]
    requests in flight has [k <= 2 * m] (each request is served once and
    answered or failed once); a run that empties the queue has [m <= k]. *)
Theorem net_run_bound k w w' :
  nsteps net_step k w w' ->
  k <= 2 * length (w_pending w) /\ (w_pending w' = [] -> length (w_pending w) <= k).
Proof.
  intros Hrun. assert (Hk : weight w' + k <= weight w /\ length (w_pending w) <= length (w_pending w') + k).
  { induction Hrun as [|k w1 w2 w3 Hs Hrun IH]; [lia|].
    pose proof (net_step_weight _ _ Hs). pose proof (net_step_length _ _ Hs). lia. }
  pose proof (weight_le w). split; [lia|]. intros Hnil. rewrite Hnil in Hk. simpl in Hk. lia.
Qed.

End Cart.

#[export] Hint Resolve reachable_wf : web.

(** ** Concrete executions

    The bus is the [Emitter]; the user Alice (id 7) has one line in her
    cart.  The worlds are built by the operations of the model, and
    [reach] proves them reachable step by step. *)

Definition backend0 : Api.Backend := Api.mkBackend {[ 7%Z := [tea] ]}.

Ltac reach :=
  repeat match goal with
  | |- reachable (init _) => apply reachable_init
  | |- reachable (mount ?w) => apply (reachable_step w); [|apply step_mount]
  | |- reachable (publish ?w) => apply (reachable_step w); [|apply step_publish]
  | |- reachable (serve _ ?w) => apply (reachable_step w); [|eapply step_serve; reflexivity]
  | |- reachable (resolve _ ?w) => apply (reachable_step w); [|eapply step_resolve; reflexivity]
  | |- reachable (set_user _ ?w) => apply (reachable_step w); [|apply step_auth]
  | |- reachable (set_backend (Api.set_cart _ _ (w_backend ?w)) ?w) =>
      apply (reachable_step w); [|apply step_backend]
  end.

(** Alice is signed in when the Navbar mounts: the mount request [A] is
    served with her one-line cart; she then adds Matcha on another page,
    which publishes; the new request [B] is served with both lines. *)
Definition race_served : World :=
  let w := serve 0 (mount (set_user (Some alice) (@init Emitter.t _ backend0))) in
  let w := set_backend (Api.set_cart 7 [tea; matcha] (w_backend w)) w in
  serve 1 (publish w).

(** [B]'s response arrives first, then [A]'s. *)
Definition race_done : World := resolve 0 (resolve 1 race_served).

(** The Navbar mounts while nobody is signed in; Alice signs in after. *)
Definition login_after_mount : World :=
  set_user (Some alice) (mount (@init Emitter.t _ backend0)).

Lemma race_done_reachable : reachable race_done.
Proof. unfold race_done, race_served. reach. Qed.

Lemma login_after_mount_reachable : reachable login_after_mount.
Proof. unfold login_after_mount. reach. Qed.

(** C9 (safety).  Responses overwrite the badge in arrival order, not in
    request order: in a reachable world with no request in flight, where
    the mounted Navbar captured the signed-in Alice, the badge shows 1
    while her cart has 2 lines, and it stays so until the next publish. *)
Theorem stale_response_overwrites :
  reachable race_done /\ w_pending race_done = [] /\ is_mounted race_done 0 = true /\
  captured_uid race_done 0 = user_id <$> w_user race_done /\
  count_of race_done 0 = Some 1 /\
  length (Api.getCartByUser (w_backend race_done) (user_id <$> w_user race_done)) = 2.
Proof. split; [exact race_done_reachable|]. vm_compute. repeat split. Qed.

(** C11 (safety).  [handleEvent] keeps the user of the first render: a
    Navbar mounted before sign-in sends [getCartByUser(undefined)] on every
    publish, so after Alice signs in and the responses settle, its badge
    shows 0 while her cart has a line. *)
Theorem stale_user_after_login :
  reachable login_after_mount /\ w_user login_after_mount = Some alice /\
  is_mounted login_after_mount 0 = true /\
  w_pending (publish login_after_mount) = [mkRequest 0 None None] /\
  count_of (settle (publish login_after_mount)) 0 = Some 0 /\
  length (Api.getCartByUser (w_backend login_after_mount) (Some (user_id alice))) = 1.
Proof. split; [exact login_after_mount_reachable|]. vm_compute. repeat split. Qed.

(** Witnesses of C1, C3, C4, C12, C14 and C15 on the executions above. *)

Lemma listeners_mounted_witness :
  reachable race_done /\ bus_listeners (w_bus race_done) updateCartNumber = [0].
Proof.
  split; [exact race_done_reachable|].
  destruct (listeners_mounted race_done race_done_reachable) as [-> _]. vm_compute. reflexivity.
Defined.

Lemma unmount_all_no_residue_witness :
  reachable race_done /\ mounted race_done = [0] /\
  bus_listeners (w_bus (fold_left (fun w n => unmount n w) (mounted race_done) race_done))
    updateCartNumber = [].
Proof.
  split; [exact race_done_reachable|]. split; [vm_compute; reflexivity|].
  exact (unmount_all_no_residue race_done race_done_reachable).
Defined.

Lemma publish_requests_witness :
  reachable race_done /\ w_pending (publish race_done) = [mkRequest 0 (Some 7%Z) None].
Proof.
  split; [exact race_done_reachable|].
  rewrite (publish_requests race_done race_done_reachable). vm_compute. reflexivity.
Defined.

Lemma resolve_spec_witness :
  w_pending race_served !! 1 = Some (mkRequest 0 (Some 7%Z) (Some [tea; matcha])) /\
  count_of (resolve 1 race_served) 0 = Some 2 /\ total_quantity [tea; matcha] = 3%Z.
Proof.
  assert (Hi : w_pending race_served !! 1 = Some (mkRequest 0 (Some 7%Z) (Some [tea; matcha])))
    by (vm_compute; reflexivity).
  split; [exact Hi|]. split; [|vm_compute; reflexivity].
  destruct (resolve_spec race_served 1 0 (Some 7%Z) [tea; matcha] Hi) as (_ & -> & _).
  vm_compute. reflexivity.
Defined.

Lemma mount_spec_witness :
  w_pending (mount (set_user (Some alice) (@init Emitter.t _ backend0))) =
    [mkRequest 0 (Some 7%Z) None].
Proof.
  destruct (mount_spec (set_user (Some alice) (@init Emitter.t _ backend0))) as (_ & _ & ->).
  reflexivity.
Defined.

Lemma publish_settles_witness :
  reachable race_done /\ is_mounted race_done 0 = true /\
  count_of (settle (publish race_done)) 0 = Some 2.
Proof.
  split; [exact race_done_reachable|]. split; [vm_compute; reflexivity|].
  destruct (publish_settles race_done race_done_reachable) as (_ & _ & ->);
    [vm_compute; reflexivity|vm_compute; reflexivity].
Defined.

Lemma refresh_idempotent_witness :
  reachable race_done /\ is_mounted race_done 0 = true /\
  count_of (settle (publish (settle (publish race_done)))) 0 = Some 2.
Proof.
  split; [exact race_done_reachable|]. split; [vm_compute; reflexivity|].
  rewrite (refresh_idempotent race_done 0 race_done_reachable) by (vm_compute; reflexivity).
  vm_compute. reflexivity.
Defined.

(** Two Navbars subscribe, a publish, the first unsubscribes twice (the
    second call is a no-op), a third subscribes: the next publish calls
    the second and the third, in that order. *)
Definition mount_cycle : list BusOp := [Sub 0; Sub 1; Pub; Unsub 0; Unsub 0; Sub 2].

Lemma publish_delivers_live_witness :
  tokens_ok [] mount_cycle = true /\
  emit record updateCartNumber (bus_run updateCartNumber (@bus_empty Emitter.t _) mount_cycle) [] = [1; 2].
Proof.
  assert (Hok : tokens_ok [] mount_cycle = true) by reflexivity.
  split; [exact Hok|].
  destruct (publish_delivers_live mount_cycle Hok) as [-> _]. reflexivity.
Defined.

(** Two Navbars mounted while Alice is signed in; their responses arrive
    in either order. *)
Definition two_navbars : World := mount (mount (set_user (Some alice) (@init Emitter.t _ backend0))).

Lemma responses_any_order_witness :
  count_of (deliver backend0 [mkRequest 1 (Some 7%Z) None; mkRequest 0 None None] two_navbars) 0 =
    Some 0 /\
  count_of (deliver backend0 [mkRequest 1 (Some 7%Z) None; mkRequest 0 None None] two_navbars) 1 =
    Some 1.
Proof.
  destruct (responses_any_order backend0 [mkRequest 0 None None; mkRequest 1 (Some 7%Z) None]
              [mkRequest 1 (Some 7%Z) None; mkRequest 0 None None] two_navbars)
    as [Hown _]; [simpl; repeat constructor; set_solver|apply Permutation_swap|].
  split.
  - apply (Hown (mkRequest 0 None None)); [set_solver|vm_compute; reflexivity].
  - apply (Hown (mkRequest 1 (Some 7%Z) None)); [set_solver|vm_compute; reflexivity].
Defined.

(** Witnesses of the network's termination and run bound: Alice's
    mount request is served, then answered. *)
Definition alice_mounted : World := mount (set_user (Some alice) (@init Emitter.t _ backend0)).

Lemma net_terminates_witness :
  (∀ w', ¬ net_step (settle alice_mounted) w') /\ w_pending (settle alice_mounted) = [].
Proof.
  assert (Hno : ∀ w', ¬ net_step (settle alice_mounted) w').
  { intros w' Hs. inversion Hs as [? i ? ? Hi|? i ? ? ? Hi|? i ? Hi]; subst;
      vm_compute in Hi; discriminate Hi. }
  split; [exact Hno|]. exact (proj2 net_terminates _ Hno).
Defined.

Lemma net_run_bound_witness :
  nsteps net_step 2 alice_mounted (resolve 0 (serve 0 alice_mounted)) /\ 2 <= 2 * 1.
Proof.
  assert (Hrun : nsteps net_step 2 alice_mounted (resolve 0 (serve 0 alice_mounted))).
  { eapply nsteps_l; [apply (net_serve alice_mounted 0 0 (Some 7%Z)); reflexivity|].
    eapply nsteps_l; [apply (net_resolve _ 0 0 (Some 7%Z) [tea]); reflexivity|]. apply nsteps_O. }
  split; [exact Hrun|]. exact (proj1 (net_run_bound 2 _ _ Hrun)).
Defined.

(** A failed request leaves the badge of the race as it was. *)
Lemma reject_spec_witness :
  count_of (reject 0 race_served) 0 = Some 0 /\ length (w_pending (reject 0 race_served)) = 1.
Proof.
  destruct (reject_spec race_served 0) as (Hp & Hc & _).
  rewrite Hc, Hp. split; vm_compute; reflexivity.
Defined.

End NavbarCart.
