(* ===== verification/NavbarView.v ===== *)
(** * The Navbar's menus and rendering

    Module [NavbarMenu] models the second [useEffect] of
    [src/fe/src/components/Header/Navbar.tsx] (lines 61-77), the
    [isMenuOpen] state with [toggleMenu], and the desktop and mobile link
    lists.  Module [NavbarView] models the JSX the component returns
    (lines 79-222): the cart badge of [cartCount] (line 127), the sign-in
    controls that read [localStorage.getItem("user")] (line 22), the
    language select over [langOptions] (lines 24-27, 141-146), the
    hamburger icon and the class of the mobile menu.  It composes with
    [NavbarCart] (the count the badge renders) and [NavbarMenu] (the state
    the icon renders). *)

From S2P Require Import Prelude EventBus CartApi Routes Navbar.

Set Warnings "-clear-no-such-hyp".

Module NavbarMenu.
Import RouteTable.

(** [activeNavLink] (lines 38-40): the class of a desktop link. *)
Definition activeNavLink (isActive : bool) : string :=
  if isActive then "text-base  underline" else "text-base ".

(** A link: its [to], the key of its translated label, and whether its
    [onClick] is [toggleMenu]. *)
Record NavLink := mkNavLink { link_to : RouteKey; link_label : string; link_toggles : bool }.

(** The desktop links (lines 89-119). *)
Definition desktopLinks : list NavLink :=
  [mkNavLink home "nav.home" false; mkNavLink product "nav.products" false;
   mkNavLink contact "nav.contact" false; mkNavLink live "nav.live" false].

(** The links of the mobile menu (lines 182-200). *)
Definition mobileLinks : list NavLink :=
  [mkNavLink home "nav.home" true; mkNavLink product "nav.products" true;
   mkNavLink contact "nav.contact" true; mkNavLink live "nav.live" true].

(** The menu state ([isMenuOpen], line 20), the document's [mousedown]
    listeners (closure identities), the closure whose cleanup React will
    run next, and the next closure identity: each render creates a new
    [handleClickOutside]. *)
Record Menu := mkMenu {
  isMenuOpen : bool;
  doc_listeners : list nat;
  effect_closure : nat;
  next_closure : nat
}.

(** The DOM's listener list: adding a listener already there does
    nothing, removing one not there does nothing. *)
Definition addEventListener (c : nat) (ls : list nat) : list nat :=
  if decide (c ∈ ls) then ls else ls ++ [c].

Definition removeEventListener (c : nat) (ls : list nat) : list nat :=
  filter (fun x => x ≠ c) ls.

(** The body of the second effect (lines 62-72) with the closure [c] of
    its render. *)
Definition menu_effect (c : nat) (open : bool) (ls : list nat) : list nat :=
  if open then addEventListener c ls else removeEventListener c ls.

(** Mount: the first render's closure is 0 and the effect runs once. *)
Definition mount_menu : Menu := mkMenu false (menu_effect 0 false []) 0 1.

(** [setIsMenuOpen(v)]: React ignores an update to the same value;
    otherwise it re-renders, runs the previous effect's cleanup (lines
    74-76) and then the effect with the new render's closure. *)
Definition setIsMenuOpen (v : bool) (m : Menu) : Menu :=
  if bool_decide (v = isMenuOpen m) then m
  else let c := next_closure m in
       mkMenu v (menu_effect c v (removeEventListener (effect_closure m) (doc_listeners m))) c (S c).

(** [toggleMenu] (lines 34-36), also the [onClick] of the mobile links. *)
Definition toggleMenu (m : Menu) : Menu := setIsMenuOpen (negb (isMenuOpen m)) m.

(** A [mousedown] on the document: every registered [handleClickOutside]
    (lines 62-66) closes the menu when the target is outside it. *)
Definition mousedown (inside : bool) (m : Menu) : Menu :=
  fold_left (fun m _ => if inside then m else setIsMenuOpen false m) (doc_listeners m) m.

(** Unmount: the pending cleanup runs; what is left on the document. *)
Definition unmount_menu (m : Menu) : list nat := removeEventListener (effect_closure m) (doc_listeners m).

Inductive menu_step : Menu -> Menu -> Prop :=
  | ms_toggle m : menu_step m (toggleMenu m)
  | ms_mousedown m inside : menu_step m (mousedown inside m).

Inductive menu_reachable : Menu -> Prop :=
  | mr_mount : menu_reachable mount_menu
  | mr_step m m' : menu_reachable m -> menu_step m m' -> menu_reachable m'.

Definition menu_inv (m : Menu) : Prop :=
  doc_listeners m = (if isMenuOpen m then [effect_closure m] else []) /\
  effect_closure m < next_closure m.

Lemma menu_inv_set v m : menu_inv m -> menu_inv (setIsMenuOpen v m).
Proof.
  intros [Hls Hc]. unfold setIsMenuOpen.
  destruct (decide (v = isMenuOpen m)) as [Hv|Hv];
    [by rewrite bool_decide_eq_true_2|rewrite bool_decide_eq_false_2 by done].
  split; simpl; [|lia]. rewrite Hls.
  destruct (isMenuOpen m), v; simpl; try congruence.
  - unfold removeEventListener. rewrite filter_cons_False by naive_solver. done.
  - unfold addEventListener, removeEventListener. reflexivity.
Qed.

Lemma menu_inv_mousedown inside m : menu_inv m -> menu_inv (mousedown inside m).
Proof.
  unfold mousedown. generalize (doc_listeners m). intros ls. revert m.
  induction ls as [|c ls IH]; intros m Hm; simpl; [done|].
  apply IH. destruct inside; [done|]. by apply menu_inv_set.
Qed.

Lemma menu_reachable_inv m : menu_reachable m -> menu_inv m.
Proof.
  induction 1 as [|m m' Hr IH Hs].
  - split; simpl; [done|lia].
  - destruct Hs; [by apply menu_inv_set|by apply menu_inv_mousedown].
Qed.

(** C21 (invariant).  The document has a [mousedown] listener exactly
    while the menu is open, never more than one, and none once the Navbar
    unmounts: the effect's cleanup removes the closure its own render
    added, although the [else] branch removes a closure never added. *)
Theorem menu_listener_invariant m :
  menu_reachable m ->
  doc_listeners m = (if isMenuOpen m then [effect_closure m] else []) /\ unmount_menu m = [].
Proof.
  intros Hr. destruct (menu_reachable_inv m Hr) as [Hls _]. split; [done|].
  unfold unmount_menu, removeEventListener. rewrite Hls.
  destruct (isMenuOpen m); [|done]. by rewrite filter_cons_False by naive_solver.
Qed.

Lemma menu_listener_invariant_witness :
  menu_reachable (toggleMenu mount_menu) /\ isMenuOpen (toggleMenu mount_menu) = true /\
  doc_listeners (toggleMenu mount_menu) = [1].
Proof.
  assert (Hr : menu_reachable (toggleMenu mount_menu)) by (eapply mr_step; [apply mr_mount|apply ms_toggle]).
  split; [exact Hr|]. split; [reflexivity|].
  destruct (menu_listener_invariant _ Hr) as [-> _]. reflexivity.
Defined.

End NavbarMenu.

(** ** The rendered Navbar *)

Module NavbarView.
Import RouteTable NavbarMenu NavbarCart.

(** [localStorage]: string keys to string values. *)
Definition Storage := gmap string string.

(** [localStorage.getItem(k)]: the stored string, or [null]. *)
Definition getItem (k : string) (st : Storage) : option string := st !! k.

(** [const isLogin = localStorage.getItem("user")] (line 22). *)
Definition isLogin (st : Storage) : option string := getItem "user" st.

(** JavaScript truthiness of a [string | null], as the conditionals
    [isLogin ? ... : ...] test it: [null] and [""] are falsy. *)
Definition truthy (v : option string) : bool :=
  match v with Some s => negb (bool_decide (s = "")) | None => false end.

(** The i18next instance, through the one field the Navbar reads. *)
Record I18n := mkI18n { language : string }.

Record LangOption := mkLangOption { value : string; label : string }.

(** [langOptions] (lines 24-27). *)
Definition langOptions : list LangOption :=
  [mkLangOption "vi" "Tiếng việt"; mkLangOption "en" "English"].

(** [defaultValue] of the select (line 144): the option whose value is
    [i18n.language], or [undefined]. *)
Definition defaultValue (i : I18n) : option LangOption :=
  find (fun option => bool_decide (value option = language i)) langOptions.

(** [i18n.changeLanguage(lng)]: the current language becomes [lng]. *)
Definition changeLanguage (lng : string) (i : I18n) : I18n := mkI18n lng.

(** [onChange] (line 145).  The select is not clearable, so react-select
    passes the chosen option, never [null]. *)
Definition onChange (option : LangOption) (i : I18n) : I18n := changeLanguage (value option) i.

Inductive Icon := FaBars | FaXmark.

(** A sign-in control: the logout button ([onClick={logoutUser}]) or the
    link to ["/login"], with its class and its translated label. *)
Inductive AuthControl :=
  | LogoutButton (className label : string)
  | LoginLink (to className label : string).

Section Render.
Variable t : string -> string.

(** The badge (line 127): [{cartCount > 0 && <div>{cartCount}</div>}];
    [false] renders nothing. *)
Definition cart_badge (cartCount : nat) : option string :=
  if bool_decide (0 < cartCount) then Some (js_int_to_string (Z.of_nat cartCount)) else None.

(** The desktop control (lines 130-140). *)
Definition desktop_auth (isLogin : option string) : AuthControl :=
  if truthy isLogin then LogoutButton "hidden lg:block" (t "button.logout")
  else LoginLink "/login" "hidden lg:block" (t "nav.login").

(** The control at the foot of the mobile menu (lines 202-218). *)
Definition mobile_auth (isLogin : option string) : AuthControl :=
  if truthy isLogin then LogoutButton "w-full text-left py-3 px-4 hover:bg-[#484a4b]" (t "button.logout")
  else LoginLink "/login" "w-full text-left py-3 px-4 hover:bg-[#484a4b] block" (t "nav.login").

(** The hamburger button (lines 151-157). *)
Definition menu_icon (isMenuOpen : bool) : Icon := if isMenuOpen then FaXmark else FaBars.

(** The class of the mobile menu (lines 165-166). *)
Definition menu_class (isMenuOpen : bool) : string :=
  "bg-black w-custom-width h-full text-white z-50 " +:+
  (if isMenuOpen then "block fixed top-0 right-0 left-0" else "hidden").

Record View := mkView {
  v_logo_to : string;
  v_desktop : list (RouteKey * string * string);
  v_cart_to : string;
  v_badge : option string;
  v_auth_desktop : AuthControl;
  v_lang_options : list LangOption;
  v_lang_default : option LangOption;
  v_menu_icon : Icon;
  v_menu_class : string;
  v_mobile_home : string;
  v_mobile : list (RouteKey * string);
  v_auth_mobile : AuthControl
}.

(** The JSX of the component (lines 79-222) for one render: [isActive]
    is the router's answer for a [NavLink]. *)
Definition render (isActive : RouteKey -> bool) (cartCount : nat) (st : Storage) (i : I18n)
    (isMenuOpen : bool) : View :=
  mkView "/"
    ((fun l => (link_to l, activeNavLink (isActive (link_to l)), t (link_label l))) <$> desktopLinks)
    "/cart" (cart_badge cartCount) (desktop_auth (isLogin st))
    langOptions (defaultValue i)
    (menu_icon isMenuOpen) (menu_class isMenuOpen)
    "/" ((fun l => (link_to l, t (link_label l))) <$> mobileLinks) (mobile_auth (isLogin st)).

(** The Navbar [n] of a world of the cart model, with the menu state [m]. *)
Definition navbar_view {B} (isActive : RouteKey -> bool) (w : @World B) (n : Listener)
    (st : Storage) (i : I18n) (m : Menu) : View :=
  render isActive (default 0 (count_of w n)) st i (isMenuOpen m).

Lemma cart_badge_spec c :
  (c = 0 /\ cart_badge c = None) \/
  (0 < c /\ ∃ s, cart_badge c = Some s /\ parse_int s = Some (Z.of_nat c)).
Proof.
  unfold cart_badge. case_bool_decide; [right|left; split; [lia|done]].
  split; [done|]. eexists. split; [reflexivity|]. apply parse_int_js.
Qed.

(** C5 (liveness).  The badge composes with the cart synchronisation:
    after a publish has settled, a mounted Navbar renders no badge when the
    cart of the user its closure captured is empty, and otherwise a badge
    whose text reads back as the number of lines of that cart. *)
Theorem badge_after_publish `{EventBusLaws B} isActive (w : World) n st i m :
  reachable w -> is_mounted w n = true ->
  (length (Api.getCartByUser (w_backend w) (captured_uid w n)) = 0 /\
   v_badge (navbar_view isActive (settle (publish w)) n st i m) = None) \/
  (0 < length (Api.getCartByUser (w_backend w) (captured_uid w n)) /\
   ∃ s, v_badge (navbar_view isActive (settle (publish w)) n st i m) = Some s /\
        parse_int s = Some (Z.of_nat (length (Api.getCartByUser (w_backend w) (captured_uid w n))))).
Proof.
  intros Hr Hn. unfold navbar_view, render. cbn [v_badge].
  rewrite settle_publish_count by auto with web. apply cart_badge_spec.
Qed.

(** C22 (invariant).  The hamburger icon and the menu's class follow the
    document listener: in every reachable menu state the close icon is
    shown exactly while a [mousedown] listener is registered, and the menu
    is hidden exactly while none is. *)
Theorem menu_view_listener m isActive cartCount st i :
  menu_reachable m ->
  (v_menu_icon (render isActive cartCount st i (isMenuOpen m)) = FaXmark <-> doc_listeners m ≠ []) /\
  (v_menu_class (render isActive cartCount st i (isMenuOpen m)) =
     "bg-black w-custom-width h-full text-white z-50 hidden" <-> doc_listeners m = []).
Proof.
  intros Hr. destruct (menu_reachable_inv m Hr) as [Hls _]. rewrite Hls.
  unfold render, menu_icon, menu_class. cbn [v_menu_icon v_menu_class].
  destruct (isMenuOpen m); vm_compute; naive_solver.
Qed.

End Render.

(** ** Concrete renders

    The identity stands for [t]; no link is active. *)

Definition no_active (k : RouteKey) : bool := false.

(** Witnesses. *)

Lemma badge_after_publish_witness :
  reachable race_done /\ is_mounted race_done 0 = true /\
  v_badge (navbar_view (fun s => s) no_active (settle (publish race_done)) 0 ∅ (mkI18n "vi") mount_menu)
    = Some "2" /\
  parse_int "2" = Some 2%Z.
Proof.
  split; [exact race_done_reachable|]. split; [vm_compute; reflexivity|].
  destruct (badge_after_publish (fun s => s) no_active race_done 0 ∅ (mkI18n "vi") mount_menu
              race_done_reachable) as [[Hc _]|[_ (s & Hb & Hs)]];
    [vm_compute; reflexivity|vm_compute in Hc; discriminate Hc|].
  rewrite Hb. vm_compute in Hb. rewrite <- Hb. split; [reflexivity|]. vm_compute. reflexivity.
Defined.

Lemma menu_view_listener_witness :
  menu_reachable (toggleMenu mount_menu) /\
  v_menu_icon (render (fun s => s) no_active 0 ∅ (mkI18n "vi") (isMenuOpen (toggleMenu mount_menu)))
    = FaXmark /\
  doc_listeners (toggleMenu mount_menu) ≠ [].
Proof.
  assert (Hr : menu_reachable (toggleMenu mount_menu)) by (eapply mr_step; [apply mr_mount|apply ms_toggle]).
  assert (Hi : v_menu_icon (render (fun s => s) no_active 0 ∅ (mkI18n "vi") (isMenuOpen (toggleMenu mount_menu)))
                 = FaXmark) by reflexivity.
  split; [exact Hr|]. split; [exact Hi|].
  apply (menu_view_listener (fun s => s) _ no_active 0 ∅ (mkI18n "vi") Hr). exact Hi.
Defined.

End NavbarView.
