(* ===== verification/Receipt.v ===== *)
(** * The order receipt of the ThankYou page

    Module [ThankYou] models [generatePDFBlob] and [printPDF] of
    [src/fe/src/pages/ThankYou/ThankYou.tsx] (lines 25-104): the header
    texts, the [forEach] loop (lines 73-85) that builds the table rows and
    accumulates [totalAmount], the table drawn by [autoTable] whose
    [didDrawPage] callback writes the total in every page footer, and the
    [try]/[catch] of [printPDF].

    The translation function [t] of react-i18next and the page layout of
    jsPDF (which rows go on which page) are Section variables: the layout is
    any split of the rows into pages, in order ([paginate_concat]).
    JavaScript numbers are integers here ([Z]).  [String(n)] of an integer is [js_int_to_string] of the
    Prelude.  The last part reads a drawn document back ([read_receipt])
    and proves that [generatePDFBlob] refines the abstract receipt of spec
    section 6 ([receipt_spec]). *)

From S2P Require Import Prelude CartApi.
Set Warnings "-clear-no-such-hyp".
From Stdlib Require Import DecimalString DecimalZ Ascii.

Module ThankYou.

(** A table cell: [autoTable] prints numbers and strings as given. *)
Inductive Cell :=
  | CellNum (n : Z)
  | CellText (s : string).

(** [x + " VND"]. *)
Definition vnd (z : Z) : string := js_int_to_string z +:+ " VND".

(** [const total = product.quantity * product.price] (line 74). *)
Definition line_total (product : CardInfo) : Z := (quantity product * price product)%Z.

(** [productData] (lines 77-83). *)
Definition productData (product : CardInfo) : list Cell :=
  [CellNum (productId product); CellText (productName product); CellNum (quantity product);
   CellText (vnd (price product)); CellText (vnd (line_total product))].

(** The variables the loop mutates: [totalAmount] and [tableRows]. *)
Record LoopState := mkLoopState { totalAmount : Z; tableRows : list (list Cell) }.

(** One iteration of [products.forEach] (lines 73-85). *)
Definition forEach_body (st : LoopState) (product : CardInfo) : LoopState :=
  let total := line_total product in
  mkLoopState (totalAmount st + total) (tableRows st ++ [productData product]).

(** [let totalAmount = 0], [const tableRows = []] and the loop. *)
Definition build_table (products : list CardInfo) : LoopState :=
  fold_left forEach_body products (mkLoopState 0 []).

(** The date of [new Date()] through its getters. *)
Record JsDate := mkJsDate { getDate : Z; getMonth : Z; getFullYear : Z }.

(** [formattedDate] (lines 44-46): day/month/year, month from 1, no
    padding. *)
Definition formattedDate (date : JsDate) : string :=
  js_int_to_string (getDate date) +:+ "/" +:+ js_int_to_string (getMonth date + 1) +:+ "/" +:+
  js_int_to_string (getFullYear date).

Record Page := mkPage { page_rows : list (list Cell); page_footer : string }.

Record Doc := mkDoc {
  doc_texts : list string;
  doc_head : list string;
  doc_pages : list Page
}.

Inductive PrintOutcome :=
  | Opened (doc : Doc)
  | Logged (e : js_error).

Section Printing.
Variable t : string -> string.
Variable paginate : list (list Cell) -> list (list (list Cell)).
Hypothesis paginate_concat : ∀ rows, concat (paginate rows) = rows.

(** The text [didDrawPage] writes at the foot of a page (line 95). *)
Definition footer_text (totalAmount : Z) : string :=
  t "pdf.totalPrice" +:+ ": " +:+ js_int_to_string totalAmount +:+ " VND".

(** [doc.autoTable]: the body split into pages, [didDrawPage] run on
    each; the callback reads [totalAmount] when the page is drawn, after
    the loop has finished. *)
Definition autoTable (body : list (list Cell)) (totalAmount : Z) : list Page :=
  map (fun rows => mkPage rows (footer_text totalAmount)) (paginate body).

Definition tableColumn : list string :=
  [t "pdf.productId"; t "pdf.productName"; t "pdf.quantity"; t "pdf.price"; t "pdf.total"].

(** [${user.name}] on a [null] user throws. *)
Definition read_name (user : option GetUserInfoDto) : js_result string :=
  match user with
  | Some u => JsOk (name u)
  | None => JsThrow (TypeError "Cannot read properties of null (reading 'name')")
  end.

(** [generatePDFBlob] (lines 38-104), the texts in the order they are
    written. *)
Definition generatePDFBlob (user : option GetUserInfoDto) (date : JsDate)
    (products : list CardInfo) : js_result Doc :=
  n <-? read_name user ;;
  let st := build_table products in
  JsOk (mkDoc [t "pdf.title"; "SEEDLING MARKET";
               t "pdf.hotline" +:+ ": (+84) 999-439611";
               "Email: seedlingmarket@company.com";
               t "pdf.customer" +:+ ": " +:+ n;
               t "pdf.date" +:+ ": " +:+ formattedDate date]
              tableColumn
              (autoTable (tableRows st) (totalAmount st))).

(** [printPDF] (lines 25-36): a Blob is always truthy, so a generated
    document is always opened; an exception is caught and logged. *)
Definition printPDF (user : option GetUserInfoDto) (date : JsDate)
    (products : list CardInfo) : PrintOutcome :=
  match generatePDFBlob user date products with
  | JsOk doc => Opened doc
  | JsThrow e => Logged e
  end.

(** The reference: the table is the list of rows, the total the sum. *)
Definition grand_total (products : list CardInfo) : Z := sumZ line_total products.

Lemma forEach_fold products st :
  fold_left forEach_body products st =
    mkLoopState (totalAmount st + grand_total products) (tableRows st ++ map productData products).
Proof.
  revert st. induction products as [|p ps IH]; intros [tot rows]; simpl.
  - by rewrite Z.add_0_r, app_nil_r.
  - rewrite IH. unfold grand_total. simpl. f_equal; [lia|by rewrite <- app_assoc].
Qed.

Lemma build_table_eq products :
  build_table products = mkLoopState (grand_total products) (map productData products).
Proof. unfold build_table. by rewrite forEach_fold. Qed.

(** The pages of [autoTable] hold the body in order, each with the
    footer of the total. *)
Lemma autoTable_rows body tot : concat (page_rows <$> autoTable body tot) = body.
Proof. unfold autoTable. by rewrite <- list_fmap_compose, list_fmap_id, paginate_concat. Qed.

(** C17 (equivalence).  The [forEach] loop computes the reference: one
    row per cart line, in cart order, and [totalAmount] the sum of the
    line totals [quantity * price]. *)
Theorem build_table_reference products :
  build_table products = mkLoopState (grand_total products) (map productData products).
Proof. apply build_table_eq. Qed.

End Printing.


(** ** Reading the printed numbers back

    [split_on c s] cuts [s] at every [c]; the parsers read the numeral
    back with [NilEmpty.int_of_string]. *)

Definition parse_date (s : string) : option (Z * Z * Z) :=
  match split_on "/"%char s with
  | [d; m; y] =>
      d' ← parse_int d; m' ← parse_int m; y' ← parse_int y; Some (d', m', y')
  | _ => None
  end.

Definition parse_vnd (s : string) : option Z :=
  match split_on " "%char s with
  | [n; "VND"] => parse_int n
  | _ => None
  end.

Definition numeral_chars : list ascii :=
  ["0"; "1"; "2"; "3"; "4"; "5"; "6"; "7"; "8"; "9"; "-"]%char.

Lemma has_char_uint c d : c ∉ numeral_chars -> has_char c (NilEmpty.string_of_uint d) = false.
Proof.
  intros Hc. induction d; cbn [has_char NilEmpty.string_of_uint]; rewrite ?IHd; [done|..];
    match goal with
    | |- context [Ascii.eqb ?a c] =>
        destruct (Ascii.eqb_spec a c) as [<-|]; [exfalso; apply Hc, (bool_decide_unpack _); by vm_compute|done]
    end.
Qed.

Lemma has_char_js_int c z : c ∉ numeral_chars -> has_char c (js_int_to_string z) = false.
Proof.
  intros Hc. unfold js_int_to_string.
  destruct (Z.to_int z) as [d|d]; cbn [NilEmpty.string_of_int has_char]; rewrite has_char_uint by done;
    [done|].
  destruct (Ascii.eqb_spec "-"%char c) as [<-|]; [|done].
  exfalso. apply Hc, (bool_decide_unpack _). by vm_compute.
Qed.

Lemma slash_not_numeral : "/"%char ∉ numeral_chars.
Proof. apply (bool_decide_unpack _). by vm_compute. Qed.

Lemma parse_formattedDate date :
  parse_date (formattedDate date) = Some (getDate date, getMonth date + 1, getFullYear date)%Z.
Proof.
  unfold parse_date, formattedDate.
  rewrite !split_on_sep, split_on_none by (apply has_char_js_int, slash_not_numeral).
  by rewrite !parse_int_js.
Qed.

Definition parse_row (row : list Cell) : option (CardInfo * Z) :=
  match row with
  | [CellNum id; CellText nm; CellNum q; CellText pr; CellText tot] =>
      p ← parse_vnd pr; total ← parse_vnd tot; Some (mkCardInfo id nm q p, total)
  | _ => None
  end.

Lemma space_not_numeral : " "%char ∉ numeral_chars.
Proof. apply (bool_decide_unpack _). by vm_compute. Qed.

Lemma parse_vnd_vnd z : parse_vnd (vnd z) = Some z.
Proof.
  unfold parse_vnd, vnd. rewrite split_on_app by (apply has_char_js_int, space_not_numeral).
  simpl. apply parse_int_js.
Qed.

Lemma parse_row_productData product :
  parse_row (productData product) = Some (product, line_total product).
Proof.
  unfold parse_row, productData. rewrite !parse_vnd_vnd. simpl. by destruct product.
Qed.

Lemma parse_rows products :
  mapM parse_row (map productData products) = Some (map (fun p => (p, line_total p)) products).
Proof.
  induction products as [|p ps IH]; [done|]. cbn -[parse_row productData].
  rewrite parse_row_productData, IH. done.
Qed.

(** ** The receipt against its specification

    Section 6 of the spec describes the receipt abstractly: a fixed brand
    header, the customer and the date, a table with the columns id, name,
    quantity, unit price and line total, and the grand total repeated on
    every page footer.  [Receipt] is that abstract document, [receipt_spec]
    the receipt the spec asks for, and [read_receipt] reads a drawn [Doc]
    back into a [Receipt]: it is the abstraction function of the
    refinement. *)

Record Receipt := mkReceipt {
  rc_brand : string;
  rc_customer : string;
  rc_date : Z * Z * Z;
  rc_columns : list string;
  rc_lines : list (CardInfo * Z);
  rc_footers : list Z
}.

Section Refinement.
Variable t : string -> string.
Variable paginate : list (list Cell) -> list (list (list Cell)).
Hypothesis paginate_concat : ∀ rows, concat (paginate rows) = rows.
Hypothesis paginate_nonempty : ∀ rows, paginate rows ≠ [].

(** The receipt the spec asks for, for a customer, a date (day, month of
    the year, year) and the ordered cart lines. *)
Definition receipt_spec (customer : string) (day month year : Z) (products : list CardInfo)
    (r : Receipt) : Prop :=
  rc_brand r = "SEEDLING MARKET" /\
  rc_customer r = customer /\
  rc_date r = (day, month, year) /\
  rc_columns r = t <$> ["pdf.productId"; "pdf.productName"; "pdf.quantity"; "pdf.price"; "pdf.total"] /\
  rc_lines r = (fun p => (p, (quantity p * price p)%Z)) <$> products /\
  rc_footers r ≠ [] /\
  Forall (fun z => z = sumZ (fun p => (quantity p * price p)%Z) products) (rc_footers r).

Definition read_footer (s : string) : option Z :=
  strip_prefix (t "pdf.totalPrice" +:+ ": ") s ≫= parse_vnd.

Definition read_receipt (d : Doc) : option Receipt :=
  match doc_texts d with
  | [_; brand; _; _; cust; date] =>
      c ← strip_prefix (t "pdf.customer" +:+ ": ") cust;
      ds ← strip_prefix (t "pdf.date" +:+ ": ") date ≫= parse_date;
      rows ← mapM parse_row (concat (page_rows <$> doc_pages d));
      fs ← mapM (fun pg => read_footer (page_footer pg)) (doc_pages d);
      Some (mkReceipt brand c ds (doc_head d) rows fs)
  | _ => None
  end.

Lemma read_footer_text tot : read_footer (footer_text t tot) = Some tot.
Proof. unfold read_footer, footer_text. rewrite strip_prefix_label. simpl. apply parse_vnd_vnd. Qed.

(** Every footer of the drawn table reads back as the total. *)
Lemma read_footers body tot :
  mapM (fun pg => read_footer (page_footer pg)) (autoTable t paginate body tot) =
    Some (replicate (length (paginate body)) tot).
Proof.
  unfold autoTable. induction (paginate body) as [|rows l IH]; [done|].
  cbn -[read_footer footer_text]. rewrite read_footer_text, IH. done.
Qed.

(** The drawn document reads back as the receipt of the spec. *)
Lemma generatePDFBlob_reads u date products :
  ∃ doc r, generatePDFBlob t paginate (Some u) date products = JsOk doc /\
    read_receipt doc = Some r /\
    receipt_spec (name u) (getDate date) (getMonth date + 1)%Z (getFullYear date) products r.
Proof.
  eexists _, _. split; [reflexivity|]. split.
  - unfold read_receipt. cbn [doc_texts doc_pages doc_head generatePDFBlob js_bind read_name].
    rewrite !strip_prefix_label. cbn [mbind option_bind].
    rewrite parse_formattedDate. cbn [mbind option_bind].
    rewrite autoTable_rows by done. rewrite build_table_eq. cbn [tableRows totalAmount].
    rewrite parse_rows, read_footers. reflexivity.
  - unfold receipt_spec. cbn. split_and!; try done.
    + destruct (paginate (map productData products)) eqn:E; [|done]. by apply paginate_nonempty in E.
    + by apply Forall_replicate.
Qed.

(** C16 (refinement).  [generatePDFBlob] implements the receipt of the
    spec: for a signed-in user the document is generated and reads back
    as a receipt with the brand header, the user's name, the date with
    its month counted from 1, the five column titles, one line per cart
    line with [quantity * price], in cart order, and at least one page
    footer, every one showing the grand total. *)
Theorem receipt_refines u date products :
  ∃ doc r, generatePDFBlob t paginate (Some u) date products = JsOk doc /\
    read_receipt doc = Some r /\
    receipt_spec (name u) (getDate date) (getMonth date + 1)%Z (getFullYear date) products r.
Proof. apply generatePDFBlob_reads. Qed.

End Refinement.

(** ** Witnesses *)

(** A layout with every row on one page. *)
Definition one_page (rows : list (list Cell)) : list (list (list Cell)) := [rows].

Lemma one_page_concat rows : concat (one_page rows) = rows.
Proof. apply app_nil_r. Qed.

Lemma one_page_nonempty rows : one_page rows ≠ [].
Proof. done. Qed.

Definition order_date : JsDate := mkJsDate 9 10 2026.

(** Alice's order of 9 November 2026 ([getMonth] is 10) reads back with
    month 11 and the single footer 220000. *)
Lemma receipt_refines_witness :
  ∃ doc r, generatePDFBlob (fun s => s) one_page (Some alice) order_date [tea; matcha] = JsOk doc /\
    read_receipt (fun s => s) doc = Some r /\
    rc_date r = (9%Z, 11%Z, 2026%Z) /\ rc_footers r = [220000%Z].
Proof.
  destruct (receipt_refines (fun s => s) one_page one_page_concat one_page_nonempty alice order_date
              [tea; matcha]) as (doc & r & Hd & Hr & _).
  exists doc, r. split; [exact Hd|]. split; [exact Hr|].
  vm_compute in Hd. injection Hd as <-. vm_compute in Hr. injection Hr as <-. split; reflexivity.
Defined.

End ThankYou.
