(* ===== verification/ThankYouPage.v ===== *)
(** * The ThankYou page

    Module [ThankYouPage] models what [ThankYou] of
    [src/fe/src/pages/ThankYou/ThankYou.tsx] reads from the Redux store
    (lines 16-21: [state.app.listCartPay] and [state.auth.currentUser]) and
    the page it returns (lines 106-131): the title, the link back to
    [routes.home], the coupon card and the print button whose [onClick] is
    [printPDF] (lines 25-36, modelled in [Receipt]).  It composes the page
    with the route table and the receipt generator. *)

From S2P Require Import Prelude CartApi Routes Receipt.

Module ThankYouPage.
Import RouteTable ThankYou.

(** The slices of the Redux state the page selects. *)
Record RootState := mkRootState {
  app_listCartPay : list CardInfo;
  auth_currentUser : option GetUserInfoDto
}.

Section Page.
Variable t : string -> string.
Variable paginate : list (list Cell) -> list (list (list Cell)).

(** [useSelector((state) => state.app.listCartPay)] (lines 16-18). *)
Definition listCartPay (state : RootState) : list CardInfo := app_listCartPay state.

(** [useSelector((state) => state.auth.currentUser)] (lines 19-21). *)
Definition user (state : RootState) : option GetUserInfoDto := auth_currentUser state.

(** The rendered page: its title, the [Link] back home with its label, the
    [CouponCard], and the print button's handler, which runs [printPDF] on
    the date of the click. *)
Record PageView := mkPageView {
  pv_title : string;
  pv_home_link : RouteKey;
  pv_home_label : string;
  pv_coupon : bool;
  pv_print : JsDate -> PrintOutcome
}.

(** The JSX of [ThankYou] (lines 106-131). *)
Definition render (state : RootState) : PageView :=
  mkPageView "Đặt hàng thành công 🎉" home "Quay về Trang chủ ➡" true
    (fun date => printPDF t paginate (user state) date (listCartPay state)).

End Page.

End ThankYouPage.
