(* ===== verification/Speakers.v ===== *)
(** * The speaker view of a live session

    Module [SpeakerView] models [src/src/pages/Live/SpeakerView.tsx]: the
    participant [Map] that [useMeeting()] returns (an association list from
    participant id to participant, in insertion order), [speakers] (lines
    10-18: the Map's values in [CONFERENCE] mode), the rendered children
    (lines 20-30), and the [useMemo] cache keyed on the Map's reference,
    over a store of Map objects that the provider replaces on every change
    (the full replace of spec section 5). *)

From S2P Require Import Prelude.

Module SpeakerView.

(** [Constants.modes] of the videosdk. *)
Inductive Mode := CONFERENCE | VIEWER.

#[global] Instance Mode_eq_dec : EqDecision Mode.
Proof. solve_decision. Defined.

Record Participant := mkParticipant {
  id : string;
  mode : Mode;
  displayName : string
}.

(** [participants]: a JS [Map] from id to participant. *)
Definition ParticipantMap := list (string * Participant).

(** [Array.from(participants.values())]. *)
Definition map_values (m : ParticipantMap) : list Participant := snd <$> m.

(** [speakers] (lines 10-18). *)
Definition speakers (m : ParticipantMap) : list Participant :=
  filter (fun participant => mode participant = CONFERENCE) (map_values m).

(** The children the component renders (lines 21-29). *)
Inductive Element :=
  | StatusLine (hlsState : string)
  | ControlsEl
  | ParticipantViewEl (participantId : string)
  | ChatEl.

Definition render (hlsState : string) (m : ParticipantMap) : list Element :=
  [StatusLine hlsState; ControlsEl] ++
  ((fun participant => ParticipantViewEl (id participant)) <$> speakers m) ++ [ChatEl].

(** The React keys of the [ParticipantView] children. *)
Definition render_keys (hlsState : string) (m : ParticipantMap) : list string :=
  omap (fun e => match e with ParticipantViewEl k => Some k | _ => None end) (render hlsState m).

(** A Map as the provider keeps it: unique keys, each the id of its
    participant. *)
Definition wf_map (m : ParticipantMap) : Prop :=
  NoDup (fst <$> m) /\ Forall (fun kv => id (snd kv) = fst kv) m.

(** ** The [useMemo] cache *)

Definition Ref := nat.

(** The provider's Map objects and the one [useMeeting] currently
    returns. *)
Record Provider := mkProvider {
  heap : gmap Ref ParticipantMap;
  current : Ref;
  next_ref : Ref
}.

Record Memo := mkMemo { memo_dep : Ref; memo_val : list Participant }.

Definition deref (pv : Provider) (r : Ref) : ParticipantMap := default [] (heap pv !! r).

(** [useMemo(() => ..., [participants])] on a render: the cached value if
    the dependency is the same object ([Object.is]), else a recomputation. *)
Definition useMemo_speakers (pv : Provider) (prev : option Memo) : Memo :=
  match prev with
  | Some mm => if decide (memo_dep mm = current pv) then mm
               else mkMemo (current pv) (speakers (deref pv (current pv)))
  | None => mkMemo (current pv) (speakers (deref pv (current pv)))
  end.

Record View := mkView { provider : Provider; memo : option Memo }.

(** The provider pushes a new snapshot as a new Map object. *)
Definition replace_map (m : ParticipantMap) (v : View) : View :=
  let pv := provider v in
  mkView (mkProvider (<[next_ref pv := m]> (heap pv)) (next_ref pv) (S (next_ref pv))) (memo v).

Definition rerender (v : View) : View :=
  mkView (provider v) (Some (useMemo_speakers (provider v) (memo v))).

Inductive replace_step : View -> View -> Prop :=
  | rs_replace v m : replace_step v (replace_map m v)
  | rs_render v : replace_step v (rerender v).

Inductive replace_reachable : View -> Prop :=
  | rr_init m : replace_reachable (mkView (mkProvider {[0 := m]} 0 1) None)
  | rr_step v v' : replace_reachable v -> replace_step v v' -> replace_reachable v'.

(** ** Lemmas *)

Lemma elem_of_map_values p m : p ∈ map_values m <-> ∃ k, (k, p) ∈ m.
Proof.
  unfold map_values. rewrite list_elem_of_fmap. split.
  - intros ([k p'] & -> & Hin). by exists k.
  - intros [k Hin]. by exists (k, p).
Qed.

Lemma render_keys_speakers h m : render_keys h m = id <$> speakers m.
Proof.
  unfold render_keys, render. simpl. rewrite omap_app. simpl. rewrite app_nil_r.
  induction (speakers m) as [|p ps IH]; [done|]. simpl. f_equal. exact IH.
Qed.

Lemma wf_map_ids m : wf_map m -> id <$> map_values m = fst <$> m.
Proof.
  intros [_ Hid]. unfold map_values. rewrite <- list_fmap_compose.
  induction Hid as [|[k p] m Hkp Hm IH]; [done|]. simpl in *. f_equal; [exact Hkp|exact IH].
Qed.

(** The memo is consistent: its value is the speakers of the Map object
    it depends on, an object allocated before the current one. *)
Definition memo_ok (v : View) : Prop :=
  current (provider v) < next_ref (provider v) /\
  (∀ r, next_ref (provider v) <= r -> heap (provider v) !! r = None) /\
  ∀ mm, memo v = Some mm ->
    memo_dep mm < next_ref (provider v) /\
    memo_val mm = speakers (deref (provider v) (memo_dep mm)).

Lemma memo_ok_replace m v : memo_ok v -> memo_ok (replace_map m v).
Proof.
  intros (Hcur & Hfree & Hmemo). unfold replace_map. split_and!; simpl; [lia| |].
  - intros r Hr. rewrite lookup_insert_ne by lia. apply Hfree. lia.
  - intros mm Hmm. destruct (Hmemo mm Hmm) as [Hdep Hval]. split; [lia|].
    rewrite Hval. unfold deref. simpl. by rewrite lookup_insert_ne by lia.
Qed.

Lemma memo_ok_rerender v : memo_ok v -> memo_ok (rerender v).
Proof.
  intros (Hcur & Hfree & Hmemo). unfold rerender. split_and!; simpl; [done|done|].
  intros mm [= <-]. unfold useMemo_speakers.
  destruct (memo v) as [mm0|]; [|done]. case_decide; [by apply Hmemo|done].
Qed.

Lemma replace_reachable_memo_ok v : replace_reachable v -> memo_ok v.
Proof.
  induction 1 as [m|v v' Hr IH Hs].
  - split_and!; simpl; [lia| |done]. intros r Hr. rewrite lookup_singleton_ne by lia. done.
  - destruct Hs; auto using memo_ok_replace, memo_ok_rerender.
Qed.

(** ** Properties *)

(** C18 (functional).  [speakers] keeps exactly the participants of the
    Map in [CONFERENCE] mode, in the Map's insertion order. *)
Theorem speakers_spec m p :
  (p ∈ speakers m <-> (∃ k, (k, p) ∈ m) /\ mode p = CONFERENCE) /\
  speakers m `sublist_of` map_values m.
Proof.
  split.
  - unfold speakers. rewrite list_elem_of_filter, elem_of_map_values. tauto.
  - apply sublist_filter.
Qed.

(** C20 (safety).  On a well-formed Map the [ParticipantView] children
    have distinct React keys, each the key of a participant of the Map. *)
Theorem render_keys_unique h m :
  wf_map m ->
  NoDup (render_keys h m) /\ (∀ k, k ∈ render_keys h m -> k ∈ fst <$> m).
Proof.
  intros Hwf. rewrite render_keys_speakers.
  assert (Hsub : id <$> speakers m `sublist_of` fst <$> m).
  { rewrite <- wf_map_ids by done. apply fmap_sublist, sublist_filter. }
  split.
  - eapply sublist_NoDup; [apply Hwf|exact Hsub].
  - intros k Hk. eapply elem_of_sublist; eauto.
Qed.

(** C19 (invariant).  When the provider delivers every change as a new
    Map object (the full replace the spec asks for), each render's
    [speakers] is the speakers of the current Map: the memo is never
    stale. *)
Theorem memo_fresh_under_replace v :
  replace_reachable v ->
  ∃ mm, memo (rerender v) = Some mm /\
        memo_val mm = speakers (deref (provider v) (current (provider v))).
Proof.
  intros Hr. pose proof (replace_reachable_memo_ok v Hr) as Hok.
  destruct (memo_ok_rerender v Hok) as (_ & _ & Hmemo).
  eexists. split; [reflexivity|]. simpl. unfold useMemo_speakers.
  destruct (memo v) as [mm|] eqn:Hm; [|done]. case_decide as Hdep; [|done].
  destruct Hok as (_ & _ & Hok). rewrite <- Hdep. by apply Hok.
Qed.

(** ** Concrete views *)

Definition host : Participant := mkParticipant "host" CONFERENCE "Host".
Definition guest : Participant := mkParticipant "guest" CONFERENCE "Guest".
Definition watcher : Participant := mkParticipant "v1" VIEWER "Viewer".
Definition map1 : ParticipantMap := [("host", host); ("v1", watcher)].
Definition map2 : ParticipantMap := [("host", host); ("guest", guest); ("v1", watcher)].
Definition view0 : View := mkView (mkProvider {[0 := map1]} 0 1) None.

Lemma render_keys_unique_witness :
  wf_map map2 /\ render_keys "HLS_STARTED" map2 = ["host"; "guest"].
Proof.
  assert (Hwf : wf_map map2) by (unfold wf_map; apply (bool_decide_unpack _); by vm_compute).
  split; [exact Hwf|].
  destruct (render_keys_unique "HLS_STARTED" map2 Hwf) as [_ _]. by vm_compute.
Defined.

Lemma memo_fresh_under_replace_witness :
  replace_reachable (replace_map map2 (rerender view0)) /\
  ∃ mm, memo (rerender (replace_map map2 (rerender view0))) = Some mm /\ memo_val mm = [host; guest].
Proof.
  assert (Hr : replace_reachable (replace_map map2 (rerender view0))).
  { eapply rr_step; [eapply rr_step; [apply rr_init|apply rs_render]|apply rs_replace]. }
  split; [exact Hr|].
  destruct (memo_fresh_under_replace _ Hr) as (mm & Hmm & Hval).
  exists mm. split; [exact Hmm|]. rewrite Hval. by vm_compute.
Defined.

End SpeakerView.
