(* ===== verification/Footer.v ===== *)
(** * The footer of the live-shop app

    Module [SiteFooter] models [Footer] of [src/src/components/Footer.tsx]:
    a component with empty props that renders a tagline and three columns
    (shop information, account, contact). *)

From S2P Require Import Prelude.

Module SiteFooter.

(** [interface Props {}] (line 1). *)
Record Props : Type := mkProps {}.

(** A column: its heading and its entries, in order. *)
Record Column := mkColumn { heading : string; entries : list string }.

Record View := mkView { tagline : string; columns : list Column }.

(** [Footer] (lines 3-30): [const {} = props] reads nothing of the props. *)
Definition Footer (props : Props) : View :=
  match props with mkProps =>
  mkView "Why People Like us!"
    [mkColumn "Shop Info" ["About Us"; "Contact Us"; "Privacy Policy"; "Term and Condition"];
     mkColumn "Account" ["Shop Details"; "Shopping Cart"];
     mkColumn "Contact " ["Address"; "Email: matcha@company.net"; "Phone: +84329028367";
                          "Payment Accepted"]]
  end.

(** ** Formats *)

End SiteFooter.
